(** * nvenc_availability: counting the GPUs that can encode H.264

    A shallow embedding of [nvenc_availability.py] and the properties of
    its three functions and of the [NvidiaGPU] record:

    - [find_command]          (lines 34-45)
    - [NvidiaGPU.parse]       (lines 52-61)
    - [NvidiaGPU.has_nvenc_h264] (lines 63-90)
    - [number_of_nvenc_gpus]  (lines 92-133)

    Python text is modelled by [string]; one [ascii] stands for one code
    point in the range U+0000..U+00FF.  On that range the classes the
    program relies on are exactly the ones written below: the only
    decimal digits are "0".."9", and the characters removed by
    [str.strip] are U+0009..U+000D, U+001C..U+0020, U+0085 and U+00A0.
    Integers are unbounded ([Z]); the conversion of a text to an integer
    has the limit of 4300 digits that CPython 3.11 puts on it by default.
    External processes are an oracle, and every call of the program that
    leaves a mark outside of its return value (a process started, a
    warning, a log record) is kept in a trace. *)

From Stdlib Require Import ZArith NArith Ascii String List Lia Bool.
From stdpp Require Import base option list gmap strings.

Local Open Scope Z_scope.

(** ** Text *)

Abbreviation str := string (only parsing).
Abbreviation bytes := string (only parsing).

Module Text.

Definition ord (c : ascii) : N := N_of_ascii c.

Definition between (lo hi c : ascii) : bool :=
  ((ord lo <=? ord c) && (ord c <=? ord hi))%N.

(** [str.isspace] on U+0000..U+00FF. *)
Definition is_space (c : ascii) : bool :=
  between "009" "013" c || between "028" "032" c
  || (ord c =? 133)%N || (ord c =? 160)%N.

(** Decimal digits on U+0000..U+00FF. *)
Definition is_digit (c : ascii) : bool := between "0" "9" c.

Definition is_empty (s : str) : bool :=
  match s with EmptyString => true | String _ _ => false end.

Fixpoint lstrip (s : str) : str :=
  match s with
  | String c s' => if is_space c then lstrip s' else s
  | EmptyString => EmptyString
  end.

Fixpoint rstrip (s : str) : str :=
  match s with
  | String c s' =>
      let r := rstrip s' in
      if is_space c && is_empty r then EmptyString else String c r
  | EmptyString => EmptyString
  end.

(** [s.strip()] *)
Definition strip (s : str) : str := rstrip (lstrip s).

(** [s.split(sep)] for a separator of one character; the result always
    has at least one item. *)
Fixpoint split (sep : ascii) (s : str) : list str :=
  match s with
  | EmptyString => [EmptyString]
  | String c s' =>
      if Ascii.eqb c sep then EmptyString :: split sep s'
      else match split sep s' with
           | h :: t => String c h :: t
           | [] => [String c EmptyString]
           end
  end.

(** [sep.join(items)] *)
Fixpoint join (sep : str) (items : list str) : str :=
  match items with
  | [] => EmptyString
  | [x] => x
  | x :: rest => x +:+ sep +:+ join sep rest
  end.

(** [s.startswith(p)], giving back what follows the prefix. *)
Fixpoint strip_prefix (p s : str) : option str :=
  match p, s with
  | EmptyString, _ => Some s
  | String a p', String b s' =>
      if Ascii.eqb a b then strip_prefix p' s' else None
  | String _ _, EmptyString => None
  end.

(** [needle in hay] *)
Fixpoint contains (needle hay : str) : bool :=
  match strip_prefix needle hay with
  | Some _ => true
  | None =>
      match hay with
      | String _ hay' => contains needle hay'
      | EmptyString => false
      end
  end.

Fixpoint all (p : ascii -> bool) (s : str) : bool :=
  match s with
  | EmptyString => true
  | String c s' => p c && all p s'
  end.

(** [s[:n]] *)
Fixpoint take (n : nat) (s : str) : str :=
  match n, s with
  | S n', String c s' => String c (take n' s')
  | _, _ => EmptyString
  end.

Definition digit_value (c : ascii) : Z := Z.of_N (ord c) - 48.

Fixpoint digits_value (acc : Z) (s : str) : Z :=
  match s with
  | EmptyString => acc
  | String c s' => digits_value (10 * acc + digit_value c) s'
  end.

(** [sys.int_info.default_max_str_digits] of CPython 3.11: the greatest
    number of digits that [int] converts. *)
Definition int_max_str_digits : nat := 4300.

(** [int(s)] on the arguments the program gives it, which are the
    non-empty runs of decimal digits captured by [\d+]: the value in
    base ten of a run of at most [int_max_str_digits] digits, leading
    zeros counted.  [None] stands for the [ValueError] of a longer run
    and of any other text. *)
Definition int (s : str) : option Z :=
  if negb (is_empty s) && all is_digit s
     && (String.length s <=? int_max_str_digits)%nat
  then Some (digits_value 0 s)
  else None.

(** [c * n] *)
Fixpoint repeat (c : ascii) (n : nat) : str :=
  match n with
  | O => EmptyString
  | S n' => String c (repeat c n')
  end.

End Text.

(** ** Regular expressions

    The fragment of [re] used by the two patterns of the program, with
    the backtracking, greedy, leftmost semantics of Python's engine. *)

Module Re.

(** An item between square brackets. *)
Inductive item :=
| Range (lo hi : ascii)
| Single (c : ascii)
| Digit.                      (* \d *)

Definition item_has (i : item) (c : ascii) : bool :=
  match i with
  | Range lo hi => Text.between lo hi c
  | Single x => Ascii.eqb x c
  | Digit => Text.is_digit c
  end.

Definition class_has (cls : list item) (c : ascii) : bool :=
  existsb (fun i => item_has i c) cls.

Inductive regex :=
| Lit (s : str)                   (* literal text *)
| Plus (cls : list item)          (* [cls]+ *)
| Group (i : nat) (r : regex)     (* ( r ), the i-th opening parenthesis *)
| Opt (r : regex)                 (* r? *)
| Seq (r1 r2 : regex).

(** What the groups captured. *)
Abbreviation groups := (gmap nat str) (only parsing).

Section Exec.
Context {R : Type}.

(** [cls+] followed by [k]: the longest run first, then shorter ones. *)
Fixpoint plus (cls : list item) (k : str -> option R) (s : str) : option R :=
  match s with
  | String c s' =>
      if class_has cls c then
        match plus cls k s' with
        | Some r => Some r
        | None => k s'
        end
      else None
  | EmptyString => None
  end.

Definition consumed (s s' : str) : str :=
  Text.take (String.length s - String.length s')%nat s.

Fixpoint exec (r : regex) (s : str) (g : groups)
    (k : str -> groups -> option R) : option R :=
  match r with
  | Lit l =>
      match Text.strip_prefix l s with
      | Some s' => k s' g
      | None => None
      end
  | Plus cls => plus cls (fun s' => k s' g) s
  | Group i r1 => exec r1 s g (fun s' g' => k s' (<[i := consumed s s']> g'))
  | Opt r1 =>
      match exec r1 s g k with
      | Some x => Some x
      | None => k s g
      end
  | Seq r1 r2 => exec r1 s g (fun s' g' => exec r2 s' g' k)
  end.
End Exec.

(** [pattern.match(s)]: anchored at the start of [s] only. *)
Definition match_ (r : regex) (s : str) : option groups :=
  exec r s ∅ (fun _ g => Some g).

(** [pattern.search(s)]: the first position of [s] with a match. *)
Fixpoint search (r : regex) (s : str) : option groups :=
  match match_ r s with
  | Some g => Some g
  | None =>
      match s with
      | String _ s' => search r s'
      | EmptyString => None
      end
  end.

(** [m.group(i)] for a group that took part in the match. *)
Definition group (g : groups) (i : nat) : str := default EmptyString (g !! i).

(** The words of a pattern. *)
Inductive denotes : regex -> str -> Prop :=
| d_lit l : denotes (Lit l) l
| d_plus cls w :
    w <> EmptyString -> Text.all (class_has cls) w = true -> denotes (Plus cls) w
| d_group i r w : denotes r w -> denotes (Group i r) w
| d_opt_some r w : denotes r w -> denotes (Opt r) w
| d_opt_none r : denotes (Opt r) EmptyString
| d_seq r1 r2 w1 w2 : denotes r1 w1 -> denotes r2 w2 -> denotes (Seq r1 r2) (w1 +:+ w2).

End Re.

(** ** Exceptions, processes and the trace *)

Inductive exn := ValueError | IndexError | KeyError | UnicodeDecodeError.

Inductive outcome (A : Type) :=
| Return (a : A)
| Raise (e : exn).
Arguments Return {A} a.
Arguments Raise {A} e.

(** What [subprocess.run(..., capture_output=True)] gives back. *)
Record CompletedProcess := {
  returncode : Z;
  stdout : bytes;
  stderr : bytes
}.

Inductive level := DEBUG | INFO | WARNING.

(** The messages of the program, one constructor for each format string,
    holding the values that the format interpolates. *)
Inductive message :=
| where_failed (cmd : str) (code : Z)                       (* line 38 *)
| command_not_found (cmd : str)                             (* line 43 *)
| parse_failed (line : str)                                 (* line 56 *)
| no_guarantee                                              (* line 66 *)
| no_core (name : str)                                      (* line 70 *)
| undetermined (name : str)                                 (* line 73 *)
| not_registered (name : str)                               (* line 76 *)
| cores_exact (name : str) (max_cores threads : Z)          (* line 83 *)
| cores_range (name : str) (min_cores max_cores threads : Z) (* line 86 *)
| maybe_no_core (name : str)                                (* line 89 *)
| smi_failed (code : Z)                                     (* line 100 *)
| version_not_parsed                                        (* line 111 *)
| driver_version (version : str) (major minor : Z)          (* line 114 *)
| driver_too_old                                            (* line 116 *)
| list_failed (code : Z) (err : str)                        (* line 124 *)
| gpus_available (n : nat) (names : str).                   (* line 132 *)

Inductive event :=
| Run (args : list str)             (* _sp.run(args, shell=True, capture_output=True) *)
| Warn (m : message)                (* _warnings.warn(m) *)
| Log (l : level) (m : message).    (* LOGGER.debug / info / warning *)

Definition trace := list event.

(** The processes started so far. *)
Definition runs (tr : trace) : list (list str) :=
  omap (fun e => match e with Run args => Some args | _ => None end) tr.

(** The host: what the [n]-th process started by the program answers,
    given its argument list. *)
Definition host := nat -> list str -> CompletedProcess.

(** A computation reads the host, extends the trace, and returns or
    raises. *)
Definition M (A : Type) : Type := host -> trace -> outcome A * trace.

Global Instance M_ret : MRet M := fun A a _ tr => (Return a, tr).

Global Instance M_bind : MBind M := fun A B f m h tr =>
  match m h tr with
  | (Return a, tr') => f a h tr'
  | (Raise e, tr') => (Raise e, tr')
  end.

Definition raise {A} (e : exn) : M A := fun _ tr => (Raise e, tr).

Definition emit (e : event) : M unit := fun _ tr => (Return tt, tr ++ [e]).

Definition sp_run (args : list str) : M CompletedProcess :=
  fun h tr => (Return (h (length (runs tr)) args), tr ++ [Run args]).

Definition warn (m : message) : M unit := emit (Warn m).
Definition log (l : level) (m : message) : M unit := emit (Log l m).

(** [b.decode()], the strict UTF-8 decoder, on the sequences that encode
    code points up to U+00FF: one byte below 0x80, or 0xC2 / 0xC3 and a
    continuation byte.  Any other sequence either is malformed, and
    Python raises [UnicodeDecodeError], or encodes a code point that has
    no image in [ascii]; the model answers [None] in both cases, and no
    result below is about the second one. *)
Fixpoint utf8 (b : bytes) : option str :=
  match b with
  | EmptyString => Some EmptyString
  | String c rest =>
      if (Text.ord c <? 128)%N then String c <$> utf8 rest
      else if (Text.ord c =? 194)%N || (Text.ord c =? 195)%N then
        match rest with
        | String d rest' =>
            if Text.between "128" "191" d then
              String (ascii_of_N (Text.ord d + (Text.ord c - 194) * 64)) <$> utf8 rest'
            else None
        | EmptyString => None
        end
      else None
  end.

Definition decode (b : bytes) : M str :=
  match utf8 b with
  | Some s => mret s
  | None => raise UnicodeDecodeError
  end.

(** [int(s)] *)
Definition int (s : str) : M Z :=
  match Text.int s with
  | Some z => mret z
  | None => raise ValueError
  end.

(** [min(l)] and [max(l)] of a list: [ValueError] on the empty one. *)
Definition py_min (l : list Z) : M Z :=
  match l with
  | [] => raise ValueError
  | x :: rest => mret (foldl Z.min x rest)
  end.

Definition py_max (l : list Z) : M Z :=
  match l with
  | [] => raise ValueError
  | x :: rest => mret (foldl Z.max x rest)
  end.

(** [l[0]] *)
Definition first {A} (l : list A) : M A :=
  match l with
  | x :: _ => mret x
  | [] => raise IndexError
  end.

(** [[x for x in l if p(x)]] for a [p] with effects. *)
Fixpoint filterM {A} (p : A -> M bool) (l : list A) : M (list A) :=
  match l with
  | [] => mret []
  | x :: rest =>
      b ← p x;
      kept ← filterM p rest;
      mret (if b : bool then x :: kept else kept)
  end.

(** ** The reference dataset *)

(** Modelled from the spec: the module [nvenc_dataset], imported at line
    50, is not among the sources.  The spec gives its four mappings:
    [NONE] and [AMBIG] from a model name to a marker, [COMPAT] from a
    model name to a sequence of core-type tags, and [NVENC_CORES_H264]
    from a core-type tag to a number of cores.  The program is
    parametric in it. *)
Record nvenc_dataset (Marker : Type) := {
  NONE : gmap str Marker;
  AMBIG : gmap str Marker;
  COMPAT : gmap str (list str);
  NVENC_CORES_H264 : gmap str Z
}.
Arguments NONE {Marker} _.
Arguments AMBIG {Marker} _.
Arguments COMPAT {Marker} _.
Arguments NVENC_CORES_H264 {Marker} _.

(** [k in d.keys()] *)
Definition has_key {V} (d : gmap str V) (k : str) : bool :=
  match d !! k with Some _ => true | None => false end.

(** [d[k]] *)
Definition getitem {V} (d : gmap str V) (k : str) : M V :=
  match d !! k with
  | Some v => mret v
  | None => raise KeyError
  end.

(** [d.get(k, dflt)] *)
Definition get {V} (d : gmap str V) (k : str) (dflt : V) : V :=
  match d !! k with Some v => v | None => dflt end.

(** ** The program *)

(** Lines 34-45. *)
Definition find_command (cmd : str) : M (option str) :=
  proc ← sp_run ["where"; cmd];
  if negb (returncode proc =? 0) then
    warn (where_failed cmd (returncode proc));;
    mret None
  else
    text ← decode (stdout proc);
    let commands := map Text.strip (Text.split "010" text) in
    if (length commands =? 0)%nat then
      warn (command_not_found cmd);;
      mret None
    else
      c ← first commands;
      mret (Some c).

(** Line 47: the named tuple. *)
Record NvidiaGPU := mkGPU {
  index : Z;
  name : str;
  uuid : str
}.

Definition name_chars : list Re.item :=
  [Re.Range "a" "z"; Re.Range "A" "Z"; Re.Range "0" "9"; Re.Single " "; Re.Single "-"].

Definition uuid_chars : list Re.item :=
  [Re.Range "a" "z"; Re.Range "A" "Z"; Re.Range "0" "9"; Re.Single "-"].

(** Line 48: [GPU (\d+): ([a-zA-Z0-9 -]+) \(UUID: ([a-zA-Z0-9-]+)\)] *)
Definition NAME_PATTERN : Re.regex :=
  Re.Seq (Re.Lit "GPU ")
 (Re.Seq (Re.Group 1 (Re.Plus [Re.Digit]))
 (Re.Seq (Re.Lit ": ")
 (Re.Seq (Re.Group 2 (Re.Plus name_chars))
 (Re.Seq (Re.Lit " (UUID: ")
 (Re.Seq (Re.Group 3 (Re.Plus uuid_chars))
         (Re.Lit ")")))))).

(** Line 49. *)
Definition THREADS_PER_CORE : Z := 3.

(** Line 57: the record of a line that could not be read. *)
Definition unknown_gpu : NvidiaGPU := mkGPU (-1) "<unknown>" "0".

(** Lines 52-61. *)
Definition parse (line : str) : M NvidiaGPU :=
  match Re.match_ NAME_PATTERN (Text.strip line) with
  | None =>
      log WARNING (parse_failed (Text.strip line));;
      mret unknown_gpu
  | Some matches =>
      index ← int (Re.group matches 1);
      let name := Re.group matches 2 in
      let uuid := Re.group matches 3 in
      mret (mkGPU index name uuid)
  end.

(** Line 103: [Driver Version: (\d+(\.\d+)?)] *)
Definition VERSION_PATTERN : Re.regex :=
  Re.Seq (Re.Lit "Driver Version: ")
         (Re.Group 1 (Re.Seq (Re.Plus [Re.Digit])
                             (Re.Opt (Re.Group 2 (Re.Seq (Re.Lit ".") (Re.Plus [Re.Digit])))))).

(** Lines 104-109: the version of the first line that has one. *)
Fixpoint find_version (out : list str) : option str :=
  match out with
  | [] => None
  | line :: rest =>
      match Re.search VERSION_PATTERN line with
      | Some matched => Some (Re.group matched 1)
      | None => find_version rest
      end
  end.

(** Lines 102 and 127: the stripped lines of a text that are not blank. *)
Definition stripped_lines (text : str) : list str :=
  map Text.strip
      (List.filter (fun line => (0 <? String.length (Text.strip line))%nat)
                   (Text.split "010" text)).

Section Program.
Context {Marker : Type} (NVENC : nvenc_dataset Marker).

(** Lines 63-90. *)
Definition has_nvenc_h264 (self : NvidiaGPU) : M bool :=
  if Text.contains "Quadro" (name self) || Text.contains "NVS" (name self)
     || Text.contains "Tesla" (name self) then
    log WARNING no_guarantee;;
    mret true
  else if has_key (NONE NVENC) (name self) then
    log WARNING (no_core (name self));;
    mret false
  else if has_key (AMBIG NVENC) (name self) then
    log WARNING (undetermined (name self));;
    mret true
  else if negb (has_key (COMPAT NVENC) (name self)) then
    log WARNING (not_registered (name self));;
    mret false
  else
    tags ← getitem (COMPAT NVENC) (name self);
    let n_cores := map (fun coretype => get (NVENC_CORES_H264 NVENC) coretype 0) tags in
    min_cores ← py_min n_cores;
    max_cores ← py_max n_cores;
    (if min_cores =? max_cores then
       log INFO (cores_exact (name self) max_cores (max_cores * THREADS_PER_CORE))
     else
       log INFO (cores_range (name self) min_cores max_cores (max_cores * THREADS_PER_CORE)));;
    (if min_cores =? 0 then log WARNING (maybe_no_core (name self)) else mret tt);;
    mret (0 <? max_cores).

(** Lines 92-133. *)
Definition number_of_nvenc_gpus : M Z :=
  nvidia_smi ← find_command "nvidia-smi";
  match nvidia_smi with
  | None => mret 0
  | Some nvidia_smi =>
      proc ← sp_run [nvidia_smi];
      if negb (returncode proc =? 0) then
        warn (smi_failed (returncode proc));;
        mret 0
      else
        text ← decode (stdout proc);
        let out := stripped_lines text in
        match find_version out with
        | None =>
            log WARNING version_not_parsed;;
            mret 0
        | Some version =>
            numbers ← mapM int (Text.split "." version);
            match numbers with
            | [major; minor] =>
                log DEBUG (driver_version version major minor);;
                if major <? 450 then
                  log WARNING driver_too_old;;
                  mret 0
                else
                  proc ← sp_run [nvidia_smi; "-L"];
                  if negb (returncode proc =? 0) then
                    err ← decode (stderr proc);
                    warn (list_failed (returncode proc) (Text.strip err));;
                    mret 0
                  else
                    listing ← decode (stdout proc);
                    GPUs ← mapM parse (stripped_lines listing);
                    let names :=
                      if (0 <? length GPUs)%nat
                      then " (" +:+ Text.join ", " (map name GPUs) +:+ ")"
                      else EmptyString in
                    log INFO (gpus_available (length GPUs) names);;
                    capable ← filterM has_nvenc_h264 GPUs;
                    mret (Z.of_nat (length capable))
            | _ => raise ValueError
            end
        end
  end.
End Program.

(** ** The vocabulary of the properties *)

(** [needle] occurs in [hay]. *)
Definition substring (needle hay : str) : Prop :=
  exists pre post, hay = pre +:+ needle +:+ post.

(** The model name carries one of the three family names of line 64. *)
Definition brand (name : str) : Prop :=
  substring "Quadro" name \/ substring "NVS" name \/ substring "Tesla" name.

(** [m] is the greatest item of [l]. *)
Definition maximum_of (l : list Z) (m : Z) : Prop :=
  m ∈ l /\ forall x, x ∈ l -> x <= m.

(** The number of cores of a core-type tag: the one registered in
    [NVENC_CORES_H264], and 0 for a tag that is not registered. *)
Definition core_count {Marker} (NVENC : nvenc_dataset Marker) (tag : str) : Z :=
  default 0 (NVENC_CORES_H264 NVENC !! tag).

(** A computation that starts no process. *)
Definition quiet {A} (m : M A) : Prop :=
  forall h tr, runs (m h tr).2 = runs tr.

(** Letters, and the characters of a name and of an identifier. *)
Definition is_letter (c : ascii) : bool :=
  Text.between "a" "z" c || Text.between "A" "Z" c.

Definition is_name_char (c : ascii) : bool :=
  is_letter c || Text.is_digit c || Ascii.eqb c " " || Ascii.eqb c "-".

Definition is_uuid_char (c : ascii) : bool :=
  is_letter c || Text.is_digit c || Ascii.eqb c "-".

(** A non-empty text made of the characters of a class. *)
Definition run_of (p : ascii -> bool) (s : str) : Prop :=
  s <> EmptyString /\ Text.all p s = true.

(** [GPU <digits>: <name> (UUID: <uuid>)] *)
Definition gpu_line (d n u : str) : str :=
  "GPU " +:+ d +:+ ": " +:+ n +:+ " (UUID: " +:+ u +:+ ")".

(** The text starts with a line of the listing. *)
Definition gpu_line_prefix (s : str) : Prop :=
  exists d n u rest,
    run_of Text.is_digit d /\ run_of is_name_char n /\ run_of is_uuid_char u /\
    s = gpu_line d n u +:+ rest.

(** The index that [parse] reads in the line, if it reads one, has no
    more digits than [int] converts. *)
Definition index_within_limit (line : str) : Prop :=
  forall d n u rest,
    run_of Text.is_digit d -> run_of is_name_char n -> run_of is_uuid_char u ->
    Text.strip line = gpu_line d n u +:+ rest ->
    (String.length d <= Text.int_max_str_digits)%nat.

(** The words of [\d+(\.\d+)?]: a number, with or without a second one
    after a dot. *)
Definition version_words (v : str) : Prop :=
  exists d, run_of Text.is_digit d /\
    (v = d \/ exists d', run_of Text.is_digit d' /\ v = d +:+ "." +:+ d').

(** ** Hosts, datasets and records of the examples *)

Definition LF : str := String "010" EmptyString.

(** A process that exits with code 0 after printing [out]. *)
Definition completed (out : bytes) : CompletedProcess :=
  {| returncode := 0; stdout := out; stderr := EmptyString |}.

(** The host whose processes answer in turn as listed. *)
Definition answers (l : list CompletedProcess) : host :=
  fun n _ => nth n l (completed EmptyString).

Definition smi_path : str := "C:\Windows\System32\nvidia-smi.exe".

(** The line of the [nvidia-smi] banner that carries the versions. *)
Definition smi_banner (version : str) : str :=
  "| NVIDIA-SMI " +:+ version +:+ "       Driver Version: " +:+ version
  +:+ "       CUDA Version: 11.0     |".

(** A host where [where] finds [nvidia-smi], the driver prints [version]
    and the listing is [listing]. *)
Definition host_driver (version : str) (listing : bytes) : host :=
  answers [completed (smi_path +:+ LF);
           completed (smi_banner version +:+ LF);
           completed listing].

(** A host where [where] exits with code 0 and prints nothing. *)
Definition host_no_match : host := answers [completed EmptyString].

Definition example_dataset : nvenc_dataset unit := {|
  NONE := {["GeForce GT 1030" := tt]};
  AMBIG := {["GeForce GTX 750" := tt]};
  COMPAT := {["GeForce RTX 3080" := ["GA102"]; "GeForce MX350" := ["GP107"; "GP108"]]};
  NVENC_CORES_H264 := {["GA102" := 1; "GP107" := 1; "GP108" := 0]}
|}.

(** A dataset whose NONE has a name of the Quadro family. *)
Definition dataset_quadro_none : nvenc_dataset unit := {|
  NONE := {["Quadro 600" := tt]};
  AMBIG := ∅;
  COMPAT := ∅;
  NVENC_CORES_H264 := ∅
|}.

(** A dataset with an entry of COMPAT that has no core-type tag. *)
Definition dataset_empty_tags : nvenc_dataset unit := {|
  NONE := ∅;
  AMBIG := ∅;
  COMPAT := {["GeForce RTX 3080" := []]};
  NVENC_CORES_H264 := ∅
|}.

(** A line of the listing whose index has one digit more than [int]
    converts. *)
Definition long_index : str := Text.repeat "1" 4301.

Definition long_index_line : str := gpu_line long_index "GeForce RTX 3080" "GPU-1234abcd".

Definition rtx3080 : NvidiaGPU := mkGPU 0 "GeForce RTX 3080" "GPU-1234abcd".
Definition mx350 : NvidiaGPU := mkGPU 0 "GeForce MX350" "GPU-1234abcd".
Definition gt1030 : NvidiaGPU := mkGPU 0 "GeForce GT 1030" "GPU-1234abcd".
Definition gf8800 : NvidiaGPU := mkGPU 0 "GeForce 8800 GT" "GPU-1234abcd".
Definition quadro600 : NvidiaGPU := mkGPU 0 "Quadro 600" "GPU-1234abcd".

(** ** The vocabulary of the further properties *)

(** [m] is the least item of [l]. *)
Definition minimum_of (l : list Z) (m : Z) : Prop :=
  m ∈ l /\ forall x, x ∈ l -> m <= x.

(** The line carries [Driver Version: ] with a digit after it. *)
Definition mentions_version (line : str) : Prop :=
  exists pre c rest,
    line = pre +:+ "Driver Version: " +:+ String c rest /\ Text.is_digit c = true.

(** The value of the computation is the same on every host and after
    every trace. *)
Definition oblivious {A} (m : M A) : Prop :=
  forall h tr h' tr', (m h tr).1 = (m h' tr').1.

(** The value of such a computation. *)
Definition value_of {A} (m : M A) : outcome A := (m (answers []) []).1.

(** The record that [parse] gives for a line, with the record of an
    unread line where it gives none. *)
Definition record_of (line : str) : NvidiaGPU :=
  match value_of (parse line) with
  | Return gpu => gpu
  | Raise _ => unknown_gpu
  end.

(** [has_nvenc_h264] returns [True] for the record. *)
Definition capable {Marker} (NVENC : nvenc_dataset Marker) (gpu : NvidiaGPU) : bool :=
  match value_of (has_nvenc_h264 NVENC gpu) with
  | Return b => b
  | Raise _ => false
  end.

(** A computation that returns no negative number. *)
Definition never_negative (m : M Z) : Prop :=
  forall h tr n, (m h tr).1 = Return n -> 0 <= n.

(** The run of [number_of_nvenc_gpus] gets to line 115 with the two
    numbers of the driver version: [nvidia-smi] is found at [path], exits
    with code 0, and the first version of its output is [version], made
    of two numbers that [int] converts. *)
Definition driver_found (h : host) (tr tr1 : trace) (path version : str)
    (major minor : Z) : Prop :=
  find_command "nvidia-smi" h tr = (Return (Some path), tr1) /\
  returncode (h (length (runs tr1)) [path]) = 0 /\
  exists text a b,
    utf8 (stdout (h (length (runs tr1)) [path])) = Some text /\
    find_version (stripped_lines text) = Some version /\
    Text.split "." version = [a; b] /\
    (String.length a <= Text.int_max_str_digits)%nat /\
    (String.length b <= Text.int_max_str_digits)%nat /\
    major = Text.digits_value 0 a /\ minor = Text.digits_value 0 b.

(** What the process of line 120 answers in such a run. *)
Definition listing_process (h : host) (tr1 : trace) (path : str) : CompletedProcess :=
  h (S (length (runs tr1))) [path; "-L"].

(** A host where [where] exits with code 1. *)
Definition host_no_where : host :=
  answers [{| returncode := 1; stdout := EmptyString; stderr := EmptyString |}].

(** The text does not go on with a character of the class. *)
Definition stops (p : ascii -> bool) (s : str) : Prop :=
  match s with
  | String c _ => p c = false
  | EmptyString => True
  end.

(** The banner line of a driver that prints a version with three
    numbers. *)
Definition banner_450_80_02 : str := smi_banner "450.80.02".

(** A computation that starts some of the processes of [l], from the
    first one on and in their order, and no other. *)
Definition starts_within {A} (l : list (list str)) (m : M A) : Prop :=
  forall h tr, exists ps, runs (m h tr).2 = runs tr ++ ps /\ ps `prefix_of` l.


(** A computation that keeps the trace it starts from, and adds to it. *)
Definition extends {A} (m : M A) : Prop :=
  forall h tr, exists more, (m h tr).2 = tr ++ more.

(** A host where [nvidia-smi] is found and exits with code 9. *)
Definition host_smi_fails : host :=
  answers [completed (smi_path +:+ LF);
           {| returncode := 9; stdout := EmptyString; stderr := EmptyString |}].

(** A host where [nvidia-smi] prints no version. *)
Definition host_no_version : host :=
  answers [completed (smi_path +:+ LF);
           completed ("No devices were found" +:+ LF)].

(** A host where the listing process exits with code 1. *)
Definition host_list_fails : host :=
  answers [completed (smi_path +:+ LF);
           completed (banner_450_80_02 +:+ LF);
           {| returncode := 1; stdout := EmptyString;
              stderr := "Unable to determine the device handle" +:+ LF |}].

(** A listing with a capable GPU, one that is not, and a line that
    cannot be read. *)
Definition example_listing : str :=
  "GPU 0: GeForce RTX 3080 (UUID: GPU-1234abcd)" +:+ LF +:+
  "GPU 1: GeForce GT 1030 (UUID: GPU-5678efab)" +:+ LF +:+
  "Unable to determine the device handle for GPU 2" +:+ LF.

(** A host where [where] prints two paths, with the line ends of
    Windows. *)
Definition host_two_paths : host :=
  answers [completed (smi_path +:+ String "013" LF +:+
                      "C:\Program Files\NVIDIA Corporation\NVSMI\nvidia-smi.exe"
                      +:+ String "013" LF)].

(** * Properties *)

(** ** Text *)

Section TextFacts.
Implicit Types (s t w p : str) (c : ascii).

Lemma sapp_nil_l s : EmptyString +:+ s = s.
Proof. reflexivity. Qed.

Lemma sapp_cons c s t : String c s +:+ t = String c (s +:+ t).
Proof. reflexivity. Qed.

Lemma sapp_nil_r s : s +:+ EmptyString = s.
Proof. induction s as [|c s IH]; [done|]. by rewrite sapp_cons, IH. Qed.

Lemma sapp_assoc s t w : (s +:+ t) +:+ w = s +:+ t +:+ w.
Proof. induction s as [|c s IH]; [done|]. by rewrite !sapp_cons, IH. Qed.

Lemma slength_app s t :
  String.length (s +:+ t) = (String.length s + String.length t)%nat.
Proof. induction s as [|c s IH]; [done|]. rewrite sapp_cons. simpl. by rewrite IH. Qed.

Lemma take_app s t : Text.take (String.length s) (s +:+ t) = s.
Proof. induction s as [|c s IH]; [by destruct t|]. rewrite sapp_cons. simpl. by rewrite IH. Qed.

Lemma strip_prefix_app p s : Text.strip_prefix p (p +:+ s) = Some s.
Proof.
  induction p as [|c p IH]; [by destruct s|].
  rewrite sapp_cons. simpl. by rewrite Ascii.eqb_refl.
Qed.

Lemma strip_prefix_Some p s t : Text.strip_prefix p s = Some t -> s = p +:+ t.
Proof.
  revert s. induction p as [|c p IH]; intros s H.
  - destruct s; simpl in H; by simplify_eq.
  - destruct s as [|b s]; simpl in H; [done|].
    destruct (Ascii.eqb_spec c b) as [->|]; [|done].
    rewrite sapp_cons. f_equal. by apply IH.
Qed.

Lemma contains_substring needle hay :
  Text.contains needle hay = true <-> substring needle hay.
Proof.
  split.
  - induction hay as [|c hay IH]; simpl.
    + destruct (Text.strip_prefix needle EmptyString) as [t|] eqn:E; [|done].
      intros _. exists EmptyString, t. by apply strip_prefix_Some in E.
    + destruct (Text.strip_prefix needle (String c hay)) as [t|] eqn:E.
      * intros _. exists EmptyString, t. by apply strip_prefix_Some in E.
      * intros H. destruct (IH H) as (pre & post & ->).
        exists (String c pre), post. by rewrite sapp_cons.
  - intros (pre & post & ->). induction pre as [|c pre IH].
    + rewrite sapp_nil_l.
      destruct post, needle; simpl; try done;
        by rewrite ?Ascii.eqb_refl, ?strip_prefix_app.
    + rewrite sapp_cons. simpl. rewrite IH.
      by destruct (Text.strip_prefix needle _).
Qed.

Lemma split_not_nil c s : Text.split c s <> [].
Proof.
  induction s as [|b s IH]; simpl; [done|].
  destruct (Ascii.eqb b c); [done|]. by destruct (Text.split c s).
Qed.

Lemma all_app f s t :
  Text.all f (s +:+ t) = Text.all f s && Text.all f t.
Proof.
  induction s as [|c s IH]; [done|].
  rewrite sapp_cons. simpl. rewrite IH. by rewrite andb_assoc.
Qed.
End TextFacts.

(** ** The matcher against the words of a pattern *)

Section ReFacts.
Context {R : Type}.
Implicit Types (s t w : str) (r : Re.regex) (g : Re.groups).

Lemma consumed_app s t : Re.consumed (s +:+ t) t = s.
Proof.
  unfold Re.consumed. rewrite slength_app.
  replace (String.length s + String.length t - String.length t)%nat
    with (String.length s) by lia.
  apply take_app.
Qed.

(** A run that ends where the class ends is taken whole when what
    follows accepts. *)
Lemma plus_greedy cls (k : str -> option R) w t x :
  w <> EmptyString -> Text.all (Re.class_has cls) w = true ->
  Re.plus cls k t = None -> k t = Some x ->
  Re.plus cls k (w +:+ t) = Some x.
Proof.
  intros Hw Hall Ht Hk. induction w as [|c w IH]; [done|].
  rewrite sapp_cons. simpl in *. apply andb_prop in Hall as [-> Hall].
  destruct w as [|c' w].
  - rewrite sapp_nil_l. by rewrite Ht.
  - by rewrite IH.
Qed.

(** It gives one character back when what follows refuses the whole
    run and accepts the shorter one. *)
Lemma plus_backtrack cls (k : str -> option R) w c t x :
  w <> EmptyString -> Text.all (Re.class_has cls) w = true ->
  Re.class_has cls c = true ->
  Re.plus cls k t = None -> k t = None -> k (String c t) = Some x ->
  Re.plus cls k (w +:+ String c t) = Some x.
Proof.
  intros Hw Hall Hc Ht Hkt Hk. induction w as [|b w IH]; [done|].
  rewrite sapp_cons. simpl in *. apply andb_prop in Hall as [-> Hall].
  destruct w as [|b' w].
  - rewrite sapp_nil_l. simpl. by rewrite Hc, Ht, Hkt.
  - by rewrite IH.
Qed.

Lemma plus_sound cls (k : str -> option R) s x :
  Re.plus cls k s = Some x ->
  exists w t, s = w +:+ t /\ w <> EmptyString /\
    Text.all (Re.class_has cls) w = true /\ k t = Some x.
Proof.
  revert x. induction s as [|c s IH]; intros x; simpl; [done|].
  destruct (Re.class_has cls c) eqn:Hc; [|done].
  destruct (Re.plus cls k s) as [y|] eqn:E.
  - intros [= ->]. destruct (IH _ eq_refl) as (w & t & -> & _ & Hall & Hk).
    exists (String c w), t. simpl. by rewrite Hc, Hall.
  - intros Hk. exists (String c EmptyString), s. simpl. by rewrite Hc.
Qed.

Lemma plus_complete cls (k : str -> option R) w t :
  w <> EmptyString -> Text.all (Re.class_has cls) w = true ->
  is_Some (k t) -> is_Some (Re.plus cls k (w +:+ t)).
Proof.
  intros Hw Hall Hk. induction w as [|c w IH]; [done|].
  rewrite sapp_cons. simpl in *. apply andb_prop in Hall as [-> Hall].
  destruct w as [|c' w].
  - rewrite sapp_nil_l. by destruct (Re.plus cls k t).
  - destruct (IH ltac:(done) Hall) as [y ->]. by eexists.
Qed.

(** Whatever the matcher accepts is a word of the pattern followed by
    a text that the continuation accepts. *)
Lemma exec_sound r : forall s g (k : str -> Re.groups -> option R) x,
  Re.exec r s g k = Some x ->
  exists w t g', s = w +:+ t /\ Re.denotes r w /\ k t g' = Some x.
Proof.
  induction r as [l|cls|i r IH|r IH|r1 IH1 r2 IH2]; intros s g k x; simpl.
  - destruct (Text.strip_prefix l s) as [t|] eqn:E; [|done].
    intros Hk. apply strip_prefix_Some in E. exists l, t, g. split_and!; [done|constructor|done].
  - intros (w & t & -> & Hw & Hall & Hk)%plus_sound.
    exists w, t, g. split_and!; [done|by constructor|done].
  - intros (w & t & g' & -> & Hd & Hk)%IH.
    eexists w, t, _. split_and!; [done|by constructor|exact Hk].
  - destruct (Re.exec r s g k) as [y|] eqn:E.
    + intros [= ->]. apply IH in E as (w & t & g' & -> & Hd & Hk).
      exists w, t, g'. split_and!; [done|by apply Re.d_opt_some|done].
    + intros Hk. exists EmptyString, s, g. split_and!; [done|apply Re.d_opt_none|done].
  - intros (w1 & t1 & g1 & -> & Hd1 & (w2 & t & g2 & -> & Hd2 & Hk)%IH2)%IH1.
    exists (w1 +:+ w2), t, g2. rewrite sapp_assoc. split_and!; [done|by constructor|done].
Qed.

(** Every word of the pattern is found, when the continuation accepts
    what follows it. *)
Lemma exec_complete r w : Re.denotes r w ->
  forall t g (k : str -> Re.groups -> option R),
  (forall g', is_Some (k t g')) -> is_Some (Re.exec r (w +:+ t) g k).
Proof.
  induction 1 as [l|cls w Hw Hall|i r w _ IH|r w _ IH|r|r1 r2 w1 w2 _ IH1 _ IH2];
    intros t g k Hk; simpl.
  - rewrite strip_prefix_app. apply Hk.
  - by apply plus_complete.
  - apply IH. intros g'. apply Hk.
  - destruct (IH t g k Hk) as [y ->]. by eexists.
  - rewrite sapp_nil_l. destruct (Re.exec r t g k); [by eexists|apply Hk].
  - rewrite sapp_assoc. apply IH1. intros g'. by apply IH2.
Qed.
End ReFacts.

(** [pattern.match] succeeds exactly on the texts that start with a word
    of the pattern. *)
Lemma match_Some_iff r s :
  is_Some (Re.match_ r s) <-> exists w t, s = w +:+ t /\ Re.denotes r w.
Proof.
  unfold Re.match_. split.
  - intros [g (w & t & g' & -> & Hd & _)%exec_sound]. by exists w, t.
  - intros (w & t & -> & Hd). apply exec_complete; [done|]. by eexists.
Qed.

Lemma search_sound r s g :
  Re.search r s = Some g -> exists pre t, s = pre +:+ t /\ Re.match_ r t = Some g.
Proof.
  induction s as [|c s IH]; simpl.
  - destruct (Re.match_ r EmptyString) eqn:E; [|done]. intros [= ->]. by exists EmptyString, EmptyString.
  - destruct (Re.match_ r (String c s)) eqn:E.
    + intros [= ->]. by exists EmptyString, (String c s).
    + intros (pre & t & -> & Hm)%IH. by exists (String c pre), t.
Qed.

(** ** Lines of the GPU listing *)

Lemma all_ext f f' s : (forall c, f c = f' c) -> Text.all f s = Text.all f' s.
Proof. intros E. induction s as [|c s IH]; [done|]. simpl. by rewrite E, IH. Qed.

Lemma name_chars_has c : Re.class_has name_chars c = is_name_char c.
Proof.
  unfold Re.class_has, name_chars, is_name_char, is_letter, Text.is_digit.
  cbn [existsb Re.item_has].
  rewrite orb_false_r, (Ascii.eqb_sym " "), (Ascii.eqb_sym "-"). by rewrite !orb_assoc.
Qed.

Lemma uuid_chars_has c : Re.class_has uuid_chars c = is_uuid_char c.
Proof.
  unfold Re.class_has, uuid_chars, is_uuid_char, is_letter, Text.is_digit.
  cbn [existsb Re.item_has].
  rewrite orb_false_r, (Ascii.eqb_sym "-"). by rewrite !orb_assoc.
Qed.

Lemma digit_has c : Re.class_has [Re.Digit] c = Text.is_digit c.
Proof. unfold Re.class_has. cbn [existsb Re.item_has]. by rewrite orb_false_r. Qed.

Lemma plus_stop {R} cls (k : str -> option R) c t :
  Re.class_has cls c = false -> Re.plus cls k (String c t) = None.
Proof. intros H. simpl. by rewrite H. Qed.

Lemma match_gpu_line d n u rest :
  run_of Text.is_digit d -> run_of is_name_char n -> run_of is_uuid_char u ->
  Re.match_ NAME_PATTERN (gpu_line d n u +:+ rest)
  = Some (<[3%nat := u]> (<[2%nat := n]> (<[1%nat := d]> ∅))).
Proof.
  intros [Hd Hd'] [Hn Hn'] [Hu Hu'].
  unfold Re.match_, gpu_line, NAME_PATTERN.
  rewrite !sapp_assoc, !sapp_cons, !sapp_nil_l. cbn [Re.exec].
  change (Text.strip_prefix "GPU " (String "G" (String "P" (String "U" (String " " ?x)))))
    with (Some x).
  cbv beta iota.
  (* the digits: the run stops at the colon *)
  apply plus_greedy; [done|by rewrite (all_ext _ _ _ digit_has)|by apply plus_stop|].
  rewrite consumed_app.
  change (Text.strip_prefix ": " (String ":" (String " " ?x))) with (Some x).
  cbv beta iota.
  (* the name: the run takes the space before the parenthesis and gives
     it back *)
  apply plus_backtrack;
    [done|by rewrite (all_ext _ _ _ name_chars_has)|done|by apply plus_stop|done|].
  rewrite consumed_app.
  change (Text.strip_prefix " (UUID: " (String " " (String "(" (String "U" (String "U"
            (String "I" (String "D" (String ":" (String " " ?x)))))))))
    with (Some x).
  cbv beta iota.
  (* the identifier: the run stops at the closing parenthesis *)
  apply plus_greedy; [done|by rewrite (all_ext _ _ _ uuid_chars_has)|by apply plus_stop|].
  by rewrite consumed_app.
Qed.

Lemma denotes_name_pattern w :
  Re.denotes NAME_PATTERN w ->
  exists d n u,
    run_of Text.is_digit d /\ run_of is_name_char n /\ run_of is_uuid_char u /\
    w = gpu_line d n u.
Proof.
  unfold NAME_PATTERN. intros H.
  repeat match goal with
         | H : Re.denotes (Re.Seq _ _) _ |- _ => inversion H; subst; clear H
         | H : Re.denotes (Re.Group _ _) _ |- _ => inversion H; subst; clear H
         | H : Re.denotes (Re.Lit _) _ |- _ => inversion H; subst; clear H
         | H : Re.denotes (Re.Plus _) _ |- _ => inversion H; subst; clear H
         end.
  rewrite (all_ext _ _ _ digit_has) in *.
  rewrite (all_ext _ _ _ name_chars_has) in *.
  rewrite (all_ext _ _ _ uuid_chars_has) in *.
  match goal with
  | |- exists _ _ _, _ /\ _ /\ _ /\ _ +:+ ?d +:+ _ +:+ ?n +:+ _ +:+ ?u +:+ _ = _ =>
      by exists d, n, u
  end.
Qed.

(** [NAME_PATTERN.match] succeeds exactly on the texts that start with a
    line of the listing. *)
Lemma match_name_pattern_iff s :
  is_Some (Re.match_ NAME_PATTERN s) <-> gpu_line_prefix s.
Proof.
  split.
  - intros (w & t & -> & (d & n & u & ? & ? & ? & ->)%denotes_name_pattern)%match_Some_iff.
    by exists d, n, u, t.
  - intros (d & n & u & rest & Hd & Hn & Hu & ->). rewrite match_gpu_line; [by eexists|done..].
Qed.

(** ** Computations *)

Section MonadFacts.
Context {A B : Type}.
Implicit Types (m : M A) (f : A -> M B) (h : host) (tr : trace).

Lemma bind_Return m f h tr a tr' :
  m h tr = (Return a, tr') -> (m ≫= f) h tr = f a h tr'.
Proof. intros H. unfold mbind, M_bind. by rewrite H. Qed.

Lemma bind_Raise m f h tr e tr' :
  m h tr = (Raise e, tr') -> (m ≫= f) h tr = (Raise e, tr').
Proof. intros H. unfold mbind, M_bind. by rewrite H. Qed.

Lemma quiet_bind m f : quiet m -> (forall a, quiet (f a)) -> quiet (m ≫= f).
Proof.
  intros Hm Hf h tr. specialize (Hm h tr).
  unfold mbind, M_bind. destruct (m h tr) as [[a|e] tr']; simpl in *; [|done].
  by rewrite Hf.
Qed.
End MonadFacts.

Lemma runs_snoc tr e :
  runs (tr ++ [e]) = runs tr ++ match e with Run args => [args] | _ => [] end.
Proof. unfold runs. rewrite omap_app. by destruct e. Qed.

Lemma quiet_ret {A} (a : A) : quiet (mret a).
Proof. by intros h tr. Qed.

Lemma quiet_raise {A} e : quiet (@raise A e).
Proof. by intros h tr. Qed.

Lemma quiet_log l m : quiet (log l m).
Proof. intros h tr. simpl. by rewrite runs_snoc, app_nil_r. Qed.

Lemma quiet_warn m : quiet (warn m).
Proof. intros h tr. simpl. by rewrite runs_snoc, app_nil_r. Qed.

Lemma quiet_decode b : quiet (decode b).
Proof. unfold decode. destruct (utf8 b); [apply quiet_ret|apply quiet_raise]. Qed.

Lemma quiet_int s : quiet (int s).
Proof. unfold int. destruct (Text.int s); [apply quiet_ret|apply quiet_raise]. Qed.

Lemma quiet_py_min l : quiet (py_min l).
Proof. destruct l; [apply quiet_raise|apply quiet_ret]. Qed.

Lemma quiet_py_max l : quiet (py_max l).
Proof. destruct l; [apply quiet_raise|apply quiet_ret]. Qed.

Lemma quiet_getitem {V} (d : gmap str V) k : quiet (getitem d k).
Proof. unfold getitem. destruct (d !! k); [apply quiet_ret|apply quiet_raise]. Qed.

Create HintDb quiet discriminated.
#[local] Hint Resolve quiet_ret quiet_raise quiet_log quiet_warn quiet_decode
  quiet_int quiet_py_min quiet_py_max quiet_getitem : quiet.

Ltac quiet_step :=
  lazymatch goal with
  | |- quiet (_ ≫= _) => apply quiet_bind; [|intros ?]
  | |- quiet (if ?b then _ else _) => destruct b
  | |- quiet (match ?x with Some _ => _ | None => _ end) => destruct x
  | |- quiet _ => solve [auto with quiet]
  end.

Lemma quiet_mapM {A B} (f : A -> M B) l : (forall a, quiet (f a)) -> quiet (mapM f l).
Proof.
  intros Hf. induction l as [|x l IH]; [apply quiet_ret|].
  change (mapM f (x :: l)) with (y ← f x; k ← mapM f l; mret (y :: k)).
  repeat quiet_step; auto.
Qed.

Lemma quiet_filterM {A} (p : A -> M bool) l : (forall a, quiet (p a)) -> quiet (filterM p l).
Proof.
  intros Hp. induction l as [|x l IH]; [apply quiet_ret|].
  simpl. repeat quiet_step; auto.
Qed.

Lemma quiet_parse line : quiet (parse line).
Proof. unfold parse. repeat quiet_step. Qed.

Lemma quiet_has_nvenc_h264 {Marker} (NVENC : nvenc_dataset Marker) gpu :
  quiet (has_nvenc_h264 NVENC gpu).
Proof. unfold has_nvenc_h264. repeat quiet_step. Qed.

(** ** [has_nvenc_h264] *)

Lemma has_key_dom {V} (d : gmap str V) k : has_key d k = true <-> k ∈ dom d.
Proof.
  unfold has_key. rewrite elem_of_dom.
  destruct (d !! k); split; (done || by eauto || by intros []).
Qed.

Lemma has_key_not_dom {V} (d : gmap str V) k : has_key d k = false <-> k ∉ dom d.
Proof. rewrite <- has_key_dom. by destruct (has_key d k). Qed.

Lemma brand_test name :
  Text.contains "Quadro" name || Text.contains "NVS" name || Text.contains "Tesla" name = true
  <-> brand name.
Proof.
  unfold brand. rewrite !orb_true_iff, !contains_substring. tauto.
Qed.

Lemma no_brand_test name :
  ~ brand name ->
  Text.contains "Quadro" name || Text.contains "NVS" name || Text.contains "Tesla" name = false.
Proof. rewrite <- brand_test. by destruct (_ || _). Qed.

Lemma foldl_max_ge rest : forall x, x <= foldl Z.max x rest.
Proof.
  induction rest as [|y rest IH]; intros x; simpl; [lia|].
  specialize (IH (Z.max x y)). lia.
Qed.

Lemma foldl_max_maximum x rest : maximum_of (x :: rest) (foldl Z.max x rest).
Proof.
  revert x. induction rest as [|y rest IH]; intros x.
  - split; [set_solver|]. intros z ?%list_elem_of_singleton. simpl. lia.
  - simpl. destruct (IH (Z.max x y)) as [Hin Hle]. split.
    + apply elem_of_cons in Hin as [Heq|Hin']; [rewrite Heq|set_solver].
      destruct (Z.max_spec x y) as [[_ ->]|[_ ->]]; set_solver.
    + intros z [->|[->|Hz]%elem_of_cons]%elem_of_cons.
      * pose proof (foldl_max_ge rest (Z.max x y)). lia.
      * pose proof (foldl_max_ge rest (Z.max x y)). lia.
      * apply Hle, elem_of_cons. by right.
Qed.

Lemma maximum_of_unique l m m' : maximum_of l m -> maximum_of l m' -> m = m'.
Proof. intros [Hin Hle] [Hin' Hle']. apply Hle' in Hin. apply Hle in Hin'. lia. Qed.

(** The side conditions, decided by evaluation. *)

Lemma not_brand_by_test name :
  Text.contains "Quadro" name || Text.contains "NVS" name || Text.contains "Tesla" name = false ->
  ~ brand name.
Proof. intros H Hb%brand_test. congruence. Qed.

Lemma not_prefix_by_match s : Re.match_ NAME_PATTERN s = None -> ~ gpu_line_prefix s.
Proof. intros H [g Hg]%match_name_pattern_iff. congruence. Qed.

Lemma not_dom_by_lookup {V} (d : gmap str V) k : d !! k = None -> k ∉ dom d.
Proof. apply not_elem_of_dom. Qed.

Lemma dom_by_lookup {V} (d : gmap str V) k v : d !! k = Some v -> k ∈ dom d.
Proof. intros H. apply elem_of_dom. by eexists. Qed.

Section Capability.
Context {Marker : Type} (NVENC : nvenc_dataset Marker).
Implicit Types (gpu : NvidiaGPU) (h : host) (tr : trace).

(** What the last branch (lines 79-90) computes for a name that no
    earlier rule catches. *)
Lemma has_nvenc_h264_registered gpu tags :
  ~ brand (name gpu) -> name gpu ∉ dom (NONE NVENC) -> name gpu ∉ dom (AMBIG NVENC) ->
  COMPAT NVENC !! name gpu = Some tags ->
  has_nvenc_h264 NVENC gpu =
    (let n_cores := map (core_count NVENC) tags in
     min_cores ← py_min n_cores;
     max_cores ← py_max n_cores;
     (if min_cores =? max_cores then
        log INFO (cores_exact (name gpu) max_cores (max_cores * THREADS_PER_CORE))
      else
        log INFO (cores_range (name gpu) min_cores max_cores (max_cores * THREADS_PER_CORE)));;
     (if min_cores =? 0 then log WARNING (maybe_no_core (name gpu)) else mret tt);;
     mret (0 <? max_cores)).
Proof.
  intros Hb Hn Ha Hc. unfold has_nvenc_h264.
  rewrite (no_brand_test _ Hb).
  apply has_key_not_dom in Hn as ->. apply has_key_not_dom in Ha as ->.
  unfold has_key, getitem. rewrite Hc. reflexivity.
Qed.

Lemma registered_outcome gpu tags h tr :
  ~ brand (name gpu) -> name gpu ∉ dom (NONE NVENC) -> name gpu ∉ dom (AMBIG NVENC) ->
  COMPAT NVENC !! name gpu = Some tags ->
  (has_nvenc_h264 NVENC gpu h tr).1 =
    match map (core_count NVENC) tags with
    | [] => Raise ValueError
    | x :: rest => Return (0 <? foldl Z.max x rest)
    end.
Proof.
  intros Hb Hn Ha Hc. rewrite (has_nvenc_h264_registered _ _ Hb Hn Ha Hc).
  destruct (map _ tags) as [|x rest]; [done|].
  unfold mbind, M_bind, py_min, py_max, log, emit, mret, M_ret.
  by destruct (_ =? foldl Z.max x rest), (_ =? 0).
Qed.

(** C1.  A name that is a key of COMPAT, and that no earlier rule
    catches, is capable exactly when the greatest number of cores among
    its core-type tags is positive; the number of cores of a tag is the
    one in NVENC_CORES_H264, and 0 for a tag that is not there. *)
Theorem has_nvenc_h264_compat gpu tags h tr :
  ~ brand (name gpu) -> name gpu ∉ dom (NONE NVENC) -> name gpu ∉ dom (AMBIG NVENC) ->
  COMPAT NVENC !! name gpu = Some tags ->
  (forall m, maximum_of (map (core_count NVENC) tags) m ->
     (has_nvenc_h264 NVENC gpu h tr).1 = Return (bool_decide (0 < m)))
  /\ ((has_nvenc_h264 NVENC gpu h tr).1 = Return true
      <-> exists m, maximum_of (map (core_count NVENC) tags) m /\ 0 < m).
Proof.
  intros Hb Hn Ha Hc. rewrite (registered_outcome _ _ h tr Hb Hn Ha Hc).
  destruct (map _ tags) as [|x rest].
  - split; [by intros m [?%elem_of_nil _]|].
    split; [done|]. by intros (m & [?%elem_of_nil _] & _).
  - pose proof (foldl_max_maximum x rest) as Hmax. split.
    + intros m Hm. rewrite (maximum_of_unique _ _ _ Hm Hmax).
      f_equal. case_bool_decide; lia.
    + split.
      * intros [= H]. eexists. split; [exact Hmax|lia].
      * intros (m & Hm & Hpos). rewrite <- (maximum_of_unique _ _ _ Hm Hmax).
        f_equal. lia.
Qed.

(** C2, as amended.  A name that is a key of NONE and carries none of
    the three family names is not capable. *)
Theorem has_nvenc_h264_none gpu h tr :
  name gpu ∈ dom (NONE NVENC) -> ~ brand (name gpu) ->
  has_nvenc_h264 NVENC gpu h tr = (Return false, tr ++ [Log WARNING (no_core (name gpu))]).
Proof.
  intros Hn Hb. unfold has_nvenc_h264. rewrite (no_brand_test _ Hb).
  by apply has_key_dom in Hn as ->.
Qed.

(** C3.  A name that contains "Quadro", "NVS" or "Tesla" is capable,
    whichever mappings of the dataset have it as a key. *)
Theorem has_nvenc_h264_brand gpu h tr :
  brand (name gpu) ->
  has_nvenc_h264 NVENC gpu h tr = (Return true, tr ++ [Log WARNING no_guarantee]).
Proof.
  intros Hb%brand_test. unfold has_nvenc_h264. by rewrite Hb.
Qed.

(** C4.  A name without any of the three family names that is a key of
    none of NONE, AMBIG and COMPAT is not capable. *)
Theorem has_nvenc_h264_unregistered gpu h tr :
  ~ brand (name gpu) ->
  name gpu ∉ dom (NONE NVENC) -> name gpu ∉ dom (AMBIG NVENC) ->
  name gpu ∉ dom (COMPAT NVENC) ->
  has_nvenc_h264 NVENC gpu h tr
  = (Return false, tr ++ [Log WARNING (not_registered (name gpu))]).
Proof.
  intros Hb Hn Ha Hc. unfold has_nvenc_h264. rewrite (no_brand_test _ Hb).
  apply has_key_not_dom in Hn as ->. apply has_key_not_dom in Ha as ->.
  by apply has_key_not_dom in Hc as ->.
Qed.

(** C9.  For a name that no earlier rule catches and that COMPAT maps
    to the empty sequence, [min] is taken of an empty list and the call
    raises; when no entry of COMPAT is empty, every call returns a
    boolean. *)
Theorem has_nvenc_h264_empty_tags :
  (forall gpu h tr,
     ~ brand (name gpu) -> name gpu ∉ dom (NONE NVENC) -> name gpu ∉ dom (AMBIG NVENC) ->
     COMPAT NVENC !! name gpu = Some [] ->
     has_nvenc_h264 NVENC gpu h tr = (Raise ValueError, tr))
  /\ ((forall n tags, COMPAT NVENC !! n = Some tags -> tags <> []) ->
      forall gpu h tr, exists b, (has_nvenc_h264 NVENC gpu h tr).1 = Return b).
Proof.
  split.
  - intros gpu h tr Hb Hn Ha Hc.
    by rewrite (has_nvenc_h264_registered _ _ Hb Hn Ha Hc).
  - intros Hne gpu h tr. unfold has_nvenc_h264.
    destruct (_ || _); [by exists true|].
    destruct (has_key (NONE NVENC) _); [by exists false|].
    destruct (has_key (AMBIG NVENC) _); [by exists true|].
    unfold has_key, getitem.
    destruct (COMPAT NVENC !! name gpu) as [tags|] eqn:Hc; [|by exists false].
    specialize (Hne _ _ Hc). destruct tags as [|tag tags]; [done|].
    eexists. unfold mbind, M_bind, py_min, py_max, log, emit, mret, M_ret. simpl.
    by destruct (_ =? _), (_ =? 0).
Qed.
End Capability.

(** ** [NvidiaGPU.parse] *)

Lemma int_digits d h tr :
  run_of Text.is_digit d -> (String.length d <= Text.int_max_str_digits)%nat ->
  int d h tr = (Return (Text.digits_value 0 d), tr).
Proof.
  intros [Hd Hall] Hlen%Nat.leb_le. unfold int, Text.int. rewrite Hall, Hlen.
  by destruct d.
Qed.

(** [int] raises for a run of more digits than it converts. *)
Lemma int_too_long d h tr :
  (Text.int_max_str_digits < String.length d)%nat -> int d h tr = (Raise ValueError, tr).
Proof.
  intros Hlen%Nat.leb_gt. unfold int, Text.int. by rewrite Hlen, andb_false_r.
Qed.

(** A line that starts as the listing prints it gives the record of its
    three fields, whatever follows the closing parenthesis. *)
Lemma parse_gpu_line line d n u rest h tr :
  run_of Text.is_digit d -> run_of is_name_char n -> run_of is_uuid_char u ->
  (String.length d <= Text.int_max_str_digits)%nat ->
  Text.strip line = gpu_line d n u +:+ rest ->
  parse line h tr = (Return (mkGPU (Text.digits_value 0 d) n u), tr).
Proof.
  intros Hd Hn Hu Hlen Hline. unfold parse.
  rewrite Hline, match_gpu_line by done. cbv beta iota.
  unfold Re.group. simplify_map_eq.
  by rewrite (bind_Return _ _ _ _ _ _ (int_digits d h tr Hd Hlen)).
Qed.

(** With an index of more digits than [int] converts, line 58 raises. *)
Lemma parse_long_index line d n u rest h tr :
  run_of Text.is_digit d -> run_of is_name_char n -> run_of is_uuid_char u ->
  (Text.int_max_str_digits < String.length d)%nat ->
  Text.strip line = gpu_line d n u +:+ rest ->
  parse line h tr = (Raise ValueError, tr).
Proof.
  intros Hd Hn Hu Hlen Hline. unfold parse.
  rewrite Hline, match_gpu_line by done. cbv beta iota.
  unfold Re.group. simplify_map_eq.
  by rewrite (bind_Raise _ _ _ _ _ _ (int_too_long d h tr Hlen)).
Qed.

Lemma parse_no_match line h tr :
  ~ gpu_line_prefix (Text.strip line) ->
  parse line h tr
  = (Return unknown_gpu, tr ++ [Log WARNING (parse_failed (Text.strip line))]).
Proof.
  intros Hno. unfold parse.
  destruct (Re.match_ NAME_PATTERN (Text.strip line)) as [g|] eqn:E; [|done].
  destruct Hno. apply match_name_pattern_iff. by eexists.
Qed.

(** [parse] returns a record for every line whose index [int]
    converts. *)
Lemma parse_returns line h tr :
  index_within_limit line ->
  exists gpu tr', parse line h tr = (Return gpu, tr') /\
    (~ gpu_line_prefix (Text.strip line) -> gpu = unknown_gpu).
Proof.
  intros Hlim. destruct (Re.match_ NAME_PATTERN (Text.strip line)) as [g|] eqn:E.
  - assert (gpu_line_prefix (Text.strip line)) as (d & n & u & rest & Hd & Hn & Hu & Hline).
    { apply match_name_pattern_iff. by eexists. }
    eexists _, _. split; [by eapply parse_gpu_line; eauto|].
    intros []. by exists d, n, u, rest.
  - exists unknown_gpu. eexists. split; [|done]. unfold parse. by rewrite E.
Qed.

(** A line that is not longer than the limit of [int] has no longer
    index. *)
Lemma short_line_within_limit line :
  (String.length (Text.strip line) <= Text.int_max_str_digits)%nat ->
  index_within_limit line.
Proof.
  intros Hlen d n u rest _ _ _ Hline. rewrite Hline in Hlen.
  unfold gpu_line in Hlen. rewrite !slength_app in Hlen. lia.
Qed.

Lemma short_by_test s :
  (String.length s <=? Text.int_max_str_digits)%nat = true ->
  (String.length s <= Text.int_max_str_digits)%nat.
Proof. apply Nat.leb_le. Qed.

Lemma short_line_by_test line :
  (String.length (Text.strip line) <=? Text.int_max_str_digits)%nat = true ->
  index_within_limit line.
Proof. intros H. by apply short_line_within_limit, short_by_test. Qed.

Lemma short_lines_by_test lines :
  forallb (fun line => (String.length (Text.strip line) <=? Text.int_max_str_digits)%nat)
          lines = true ->
  Forall index_within_limit lines.
Proof.
  induction lines as [|line lines IH]; simpl; [constructor|].
  intros [H1 H2]%andb_prop. constructor; [by apply short_line_by_test|by apply IH].
Qed.

(** A line that [parse] does not read as one of the listing has no
    index. *)
Lemma no_match_within_limit line :
  ~ gpu_line_prefix (Text.strip line) -> index_within_limit line.
Proof. intros Hno d n u rest Hd Hn Hu Hline. destruct Hno. by exists d, n, u, rest. Qed.



Lemma name_not_unknown n : run_of is_name_char n -> n <> "<unknown>".
Proof. by intros [_ Hall] ->. Qed.


Section Parse.
Context {Marker : Type} (NVENC : nvenc_dataset Marker).
Implicit Types (h : host) (tr : trace).

End Parse.

(** C10, as amended.  The pattern is anchored at the start of the
    stripped line only: a line that starts as
    [GPU <digits>: <name> (UUID: <uuid>)], with no more digits than [int]
    converts, gives the record of these three fields, not the record of
    an unread line, and the text after the closing parenthesis plays no
    part. *)
Theorem parse_ignores_trailing_text line d n u rest h tr :
  run_of Text.is_digit d -> run_of is_name_char n -> run_of is_uuid_char u ->
  (String.length d <= Text.int_max_str_digits)%nat ->
  Text.strip line = gpu_line d n u +:+ rest ->
  parse line h tr = (Return (mkGPU (Text.digits_value 0 d) n u), tr)
  /\ mkGPU (Text.digits_value 0 d) n u <> unknown_gpu.
Proof.
  intros Hd Hn Hu Hlen Hline. split; [by apply (parse_gpu_line _ _ _ _ rest)|].
  intros [= _ E]. by apply name_not_unknown in Hn.
Qed.

(** ** The driver version *)

Lemma all_impl (f f' : ascii -> bool) s :
  (forall c, f c = true -> f' c = true) -> Text.all f s = true -> Text.all f' s = true.
Proof.
  intros Hf. induction s as [|c s IH]; [done|]. simpl.
  intros [Hc Hs]%andb_prop. by rewrite (Hf _ Hc), IH.
Qed.

Lemma split_no_sep sep s :
  Text.all (fun c => negb (Ascii.eqb c sep)) s = true -> Text.split sep s = [s].
Proof.
  induction s as [|c s IH]; [done|]. simpl. intros [Hc Hs]%andb_prop.
  apply negb_true_iff in Hc as ->. by rewrite IH.
Qed.

Lemma split_at_sep sep s t :
  Text.all (fun c => negb (Ascii.eqb c sep)) s = true ->
  Text.split sep (s +:+ String sep t) = s :: Text.split sep t.
Proof.
  induction s as [|c s IH].
  - intros _. rewrite sapp_nil_l. simpl. by rewrite Ascii.eqb_refl.
  - rewrite sapp_cons. simpl. intros [Hc Hs]%andb_prop.
    apply negb_true_iff in Hc as ->. by rewrite IH.
Qed.

Lemma digit_not_dot c : Text.is_digit c = true -> negb (Ascii.eqb c ".") = true.
Proof. destruct (Ascii.eqb_spec c ".") as [->|]; [done|done]. Qed.

Lemma version_words_split v :
  version_words v ->
  (exists d, run_of Text.is_digit d /\ Text.split "." v = [d])
  \/ (exists d d', run_of Text.is_digit d /\ run_of Text.is_digit d' /\
        Text.split "." v = [d; d']).
Proof.
  intros (d & Hd & [->|(d' & Hd' & ->)]).
  - left. exists d. split; [done|]. apply split_no_sep.
    destruct Hd as [_ Hd]. by apply (all_impl _ _ _ digit_not_dot).
  - right. exists d, d'. split_and!; [done..|].
    rewrite (sapp_cons "." EmptyString d'), sapp_nil_l, split_at_sep, split_no_sep; [done|..].
    + destruct Hd' as [_ Hd']. by apply (all_impl _ _ _ digit_not_dot).
    + destruct Hd as [_ Hd]. by apply (all_impl _ _ _ digit_not_dot).
Qed.

Lemma match_version s g :
  Re.match_ VERSION_PATTERN s = Some g -> version_words (Re.group g 1).
Proof.
  unfold Re.match_, VERSION_PATTERN.
  remember (Re.Seq (Re.Plus [Re.Digit]) _) as body eqn:Hbody. cbn [Re.exec].
  destruct (Text.strip_prefix _ s) as [s1|]; [|done].
  intros (w & t & g' & -> & Hw & [= <-])%exec_sound. subst body.
  unfold Re.group. rewrite consumed_app, lookup_insert_eq. simpl.
  inversion Hw as [| | | | |? ? d w2 Hd Hopt]; subst.
  inversion Hd; subst. rewrite (all_ext _ _ _ digit_has) in *.
  exists d. split; [done|].
  inversion Hopt as [| | |? ? Hg| |]; subst; [|left; by rewrite sapp_nil_r].
  inversion Hg as [| |? ? ? Hs| | |]; subst.
  inversion Hs as [| | | | |? ? ? d' Hl Hd2]; subst.
  inversion Hl; subst. inversion Hd2; subst. rewrite (all_ext _ _ _ digit_has) in *.
  right. by exists d'.
Qed.

(** The version that lines 104-109 find is a number, with or without a
    second one after a dot. *)
Lemma find_version_words out v : find_version out = Some v -> version_words v.
Proof.
  induction out as [|line out IH]; simpl; [done|].
  destruct (Re.search VERSION_PATTERN line) as [g|] eqn:E; [|done].
  intros [= <-]. apply search_sound in E as (pre & t & _ & Hm).
  by eapply match_version.
Qed.

(** ** [find_command] and [number_of_nvenc_gpus] *)

Lemma sp_run_eq args h tr :
  sp_run args h tr = (Return (h (length (runs tr)) args), tr ++ [Run args]).
Proof. reflexivity. Qed.

Lemma decode_Some b s h tr : utf8 b = Some s -> decode b h tr = (Return s, tr).
Proof. intros H. unfold decode. by rewrite H. Qed.

(** [find_command] starts one process, whatever it answers. *)
Lemma find_command_runs cmd h tr r tr1 :
  find_command cmd h tr = (r, tr1) -> runs tr1 = runs tr ++ [["where"; cmd]].
Proof.
  unfold find_command, mbind, M_bind, sp_run, decode, warn, emit.
  destruct (negb _).
  - intros [= _ <-]. by rewrite !runs_snoc, app_nil_r.
  - destruct (utf8 _) as [text|]; [|intros [= _ <-]; by rewrite runs_snoc].
    unfold mret, M_ret.
    pose proof (split_not_nil "010" text). destruct (Text.split "010" text); [done|].
    intros [= _ <-]. by rewrite runs_snoc.
Qed.

Lemma mapM_int_one a h tr :
  run_of Text.is_digit a -> (String.length a <= Text.int_max_str_digits)%nat ->
  mapM int [a] h tr = (Return [Text.digits_value 0 a], tr).
Proof.
  intros Ha Hlen. change (mapM int [a]) with (x ← int a; k ← mret []; mret (x :: k)).
  unfold mbind, M_bind. by rewrite (int_digits a h tr Ha Hlen).
Qed.

Lemma mapM_int_one_long a h tr :
  (Text.int_max_str_digits < String.length a)%nat ->
  mapM int [a] h tr = (Raise ValueError, tr).
Proof.
  intros Hlen. change (mapM int [a]) with (x ← int a; k ← mret []; mret (x :: k)).
  unfold mbind, M_bind. by rewrite (int_too_long a h tr Hlen).
Qed.

Lemma mapM_int_pair a b h tr :
  run_of Text.is_digit a -> run_of Text.is_digit b ->
  (String.length a <= Text.int_max_str_digits)%nat ->
  (String.length b <= Text.int_max_str_digits)%nat ->
  mapM int [a; b] h tr = (Return [Text.digits_value 0 a; Text.digits_value 0 b], tr).
Proof.
  intros Ha Hb Hla Hlb.
  change (mapM int [a; b])
    with (x ← int a; k ← (y ← int b; k ← mret []; mret (y :: k)); mret (x :: k)).
  unfold mbind, M_bind. by rewrite (int_digits a h tr Ha Hla), (int_digits b h tr Hb Hlb).
Qed.

#[local] Hint Resolve quiet_parse quiet_has_nvenc_h264 : quiet.

Ltac quiet_steps :=
  repeat first
    [ apply quiet_mapM; intros ?
    | apply quiet_filterM; intros ?
    | quiet_step ].

(** A process, then a computation that starts none. *)
Lemma bind_sp_run_quiet {A} (K : CompletedProcess -> M A) args h tr :
  (forall p, quiet (K p)) ->
  exists r tr', (sp_run args ≫= K) h tr = (r, tr') /\ runs tr' = runs tr ++ [args].
Proof.
  intros HK. unfold mbind, M_bind, sp_run.
  specialize (HK (h (length (runs tr)) args) h (tr ++ [Run args])).
  destruct (K _ h _) as [r tr']. exists r, tr'. split; [done|].
  simpl in HK. by rewrite HK, runs_snoc.
Qed.

(** Lines 93-112 of [number_of_nvenc_gpus], once [nvidia-smi] is found,
    exits with code 0 and prints a version. *)
Ltac to_line_113 Hfind Hrc Hout Hver :=
  unfold number_of_nvenc_gpus;
  rewrite (bind_Return _ _ _ _ _ _ Hfind); cbv iota beta;
  rewrite (bind_Return _ _ _ _ _ _ (sp_run_eq _ _ _)); cbv beta;
  rewrite Hrc; change (negb (0 =? 0)) with false; cbv iota;
  rewrite (bind_Return _ _ _ _ _ _ (decode_Some _ _ _ _ Hout)); cbv zeta;
  rewrite Hver.

Section DriverGate.
Context {Marker : Type} (NVENC : nvenc_dataset Marker).
Implicit Types (h : host) (tr : trace).

(** Line 113, for a driver that prints a version of one number: the
    list has one item, whether [int] converts it or raises, and the
    function raises. *)
Lemma version_one_number h tr tr1 path text version :
  find_command "nvidia-smi" h tr = (Return (Some path), tr1) ->
  returncode (h (length (runs tr1)) [path]) = 0 ->
  utf8 (stdout (h (length (runs tr1)) [path])) = Some text ->
  find_version (stripped_lines text) = Some version ->
  length (Text.split "." version) <> 2%nat ->
  number_of_nvenc_gpus NVENC h tr = (Raise ValueError, tr1 ++ [Run [path]]).
Proof.
  intros Hfind Hrc Hout Hver Hlen.
  destruct (version_words_split _ (find_version_words _ _ Hver))
    as [(d & Hd & E)|(d & d' & _ & _ & E)]; rewrite E in Hlen; [|done].
  to_line_113 Hfind Hrc Hout Hver. rewrite E.
  destruct (le_lt_dec (String.length d) Text.int_max_str_digits) as [Hle|Hgt].
  - by rewrite (bind_Return _ _ _ _ _ _ (mapM_int_one d h _ Hd Hle)).
  - by rewrite (bind_Raise _ _ _ _ _ _ (mapM_int_one_long d h _ Hgt)).
Qed.

(** Lines 113-133, for a driver that prints a version with its two
    numbers, each of them one that [int] converts. *)
Lemma version_gate h tr tr1 path text version a b :
  find_command "nvidia-smi" h tr = (Return (Some path), tr1) ->
  returncode (h (length (runs tr1)) [path]) = 0 ->
  utf8 (stdout (h (length (runs tr1)) [path])) = Some text ->
  find_version (stripped_lines text) = Some version ->
  Text.split "." version = [a; b] ->
  (String.length a <= Text.int_max_str_digits)%nat ->
  (String.length b <= Text.int_max_str_digits)%nat ->
  let major := Text.digits_value 0 a in
  let minor := Text.digits_value 0 b in
  (major < 450 ->
     number_of_nvenc_gpus NVENC h tr
     = (Return 0, tr1 ++ [Run [path]] ++ [Log DEBUG (driver_version version major minor)]
                      ++ [Log WARNING driver_too_old]))
  /\ (450 <= major ->
      exists r tr', number_of_nvenc_gpus NVENC h tr = (r, tr') /\
        runs tr' = runs tr ++ [["where"; "nvidia-smi"]; [path]; [path; "-L"]]).
Proof.
  intros Hfind Hrc Hout Hver Hsplit Hla Hlb major minor.
  pose proof (find_command_runs _ _ _ _ _ Hfind) as Hruns.
  assert (run_of Text.is_digit a /\ run_of Text.is_digit b) as [Ha Hb].
  { destruct (version_words_split _ (find_version_words _ _ Hver))
      as [(d & _ & E)|(d & d' & Hd & Hd' & E)]; rewrite E in Hsplit; by simplify_eq. }
  to_line_113 Hfind Hrc Hout Hver. rewrite Hsplit.
  rewrite (bind_Return _ _ _ _ _ _ (mapM_int_pair a b h _ Ha Hb Hla Hlb)).
  cbv iota beta. fold major minor. split; intros Hmajor.
  - apply Z.ltb_lt in Hmajor. rewrite Hmajor.
    unfold mbind, M_bind, log, emit, mret, M_ret. by rewrite <- !(assoc (++)).
  - apply Z.ltb_ge in Hmajor. rewrite Hmajor.
    unfold mbind at 1, M_bind at 1. simpl log.
    unfold log at 1, emit at 1.
    match goal with
    | |- context [mbind ?K (sp_run ?args) h ?t] =>
        destruct (bind_sp_run_quiet K args h t) as (r & tr' & E & Hr);
          [intros p; quiet_steps|]
    end.
    exists r, tr'. split; [exact E|].
    rewrite Hr, !runs_snoc, Hruns, app_nil_r. by rewrite <- !(assoc (++)).
Qed.

(** C5.  [number_of_nvenc_gpus] raises for some answers of the driver:
    when the version that line 108 takes has no second number, line 113
    unpacks the one item of [version.split(".")] into two names and
    raises [ValueError].  So it is for a banner that prints the version
    as 450. *)
Theorem number_of_nvenc_gpus_raises :
  (forall h tr tr1 path text version,
     find_command "nvidia-smi" h tr = (Return (Some path), tr1) ->
     returncode (h (length (runs tr1)) [path]) = 0 ->
     utf8 (stdout (h (length (runs tr1)) [path])) = Some text ->
     find_version (stripped_lines text) = Some version ->
     length (Text.split "." version) <> 2%nat ->
     number_of_nvenc_gpus NVENC h tr = (Raise ValueError, tr1 ++ [Run [path]]))
  /\ (forall listing,
        number_of_nvenc_gpus NVENC (host_driver "450" listing) []
        = (Raise ValueError, [Run ["where"; "nvidia-smi"]; Run [smi_path]])).
Proof.
  split; [|reflexivity].
  intros h tr tr1 path text version. apply version_one_number.
Qed.

(** C6.  The gate on the major number is not what [number_of_nvenc_gpus]
    does for every version that line 108 takes: line 113 comes first.
    For the version 440, of one number, the function raises [ValueError]
    and does not return 0; so it does for every version of one number,
    below 450 or not, and the listing is never asked for.  For a version
    of two numbers that [int] converts the gate is the one described:
    below 450 the function returns 0 and the listing is not asked for,
    from 450 on the listing is asked for, as for 440.10 and 450.00. *)
Theorem driver_version_gate :
  (forall listing,
     number_of_nvenc_gpus NVENC (host_driver "440" listing) []
     = (Raise ValueError, [Run ["where"; "nvidia-smi"]; Run [smi_path]])
     /\ (number_of_nvenc_gpus NVENC (host_driver "440" listing) []).1 <> Return 0)
  /\ (forall h tr tr1 path text version a,
        find_command "nvidia-smi" h tr = (Return (Some path), tr1) ->
        returncode (h (length (runs tr1)) [path]) = 0 ->
        utf8 (stdout (h (length (runs tr1)) [path])) = Some text ->
        find_version (stripped_lines text) = Some version ->
        Text.split "." version = [a] ->
        number_of_nvenc_gpus NVENC h tr = (Raise ValueError, tr1 ++ [Run [path]]))
  /\ (forall h tr tr1 path text version a b,
        find_command "nvidia-smi" h tr = (Return (Some path), tr1) ->
        returncode (h (length (runs tr1)) [path]) = 0 ->
        utf8 (stdout (h (length (runs tr1)) [path])) = Some text ->
        find_version (stripped_lines text) = Some version ->
        Text.split "." version = [a; b] ->
        (String.length a <= Text.int_max_str_digits)%nat ->
        (String.length b <= Text.int_max_str_digits)%nat ->
        let major := Text.digits_value 0 a in
        let minor := Text.digits_value 0 b in
        (major < 450 ->
           number_of_nvenc_gpus NVENC h tr
           = (Return 0, tr1 ++ [Run [path]]
                            ++ [Log DEBUG (driver_version version major minor)]
                            ++ [Log WARNING driver_too_old]))
        /\ (450 <= major ->
            exists r tr', number_of_nvenc_gpus NVENC h tr = (r, tr') /\
              runs tr' = runs tr ++ [["where"; "nvidia-smi"]; [path]; [path; "-L"]]))
  /\ (forall listing,
        number_of_nvenc_gpus NVENC (host_driver "440.10" listing) []
        = (Return 0, [Run ["where"; "nvidia-smi"]; Run [smi_path];
                      Log DEBUG (driver_version "440.10" 440 10);
                      Log WARNING driver_too_old]))
  /\ (forall listing, exists r tr',
        number_of_nvenc_gpus NVENC (host_driver "450.00" listing) [] = (r, tr') /\
        runs tr' = [["where"; "nvidia-smi"]; [smi_path]; [smi_path; "-L"]]).
Proof.
  split_and!.
  - intros listing. split; [reflexivity|discriminate].
  - intros h tr tr1 path text version a Hfind Hrc Hout Hver Hsplit.
    apply (version_one_number h tr tr1 path text version); [done..|].
    by rewrite Hsplit.
  - intros h tr tr1 path text version a b. apply version_gate.
  - reflexivity.
  - intros listing.
    apply (version_gate (host_driver "450.00" listing) [] _ smi_path _
             "450.00" "450" "00" eq_refl eq_refl eq_refl eq_refl eq_refl);
      [unfold Text.int_max_str_digits; simpl; lia..|done].
Qed.
End DriverGate.

(** C8.  After [where] exits with code 0, [find_command] answers with
    the first line of its output, stripped, whatever the output is: the
    test of line 42 never holds, as [split] gives at least one item.  So
    when [where] prints nothing the answer is the empty text and not
    [None]. *)
Theorem find_command_no_match :
  (forall cmd h tr text,
     returncode (h (length (runs tr)) ["where"; cmd]) = 0 ->
     utf8 (stdout (h (length (runs tr)) ["where"; cmd])) = Some text ->
     find_command cmd h tr
     = (Return (Some (Text.strip (hd EmptyString (Text.split "010" text)))),
        tr ++ [Run ["where"; cmd]]))
  /\ (forall cmd,
        find_command cmd host_no_match []
        = (Return (Some EmptyString), [Run ["where"; cmd]])).
Proof.
  split; [|reflexivity].
  intros cmd h tr text Hrc Hout. unfold find_command.
  rewrite (bind_Return _ _ _ _ _ _ (sp_run_eq _ h tr)). cbv beta.
  rewrite Hrc. change (negb (0 =? 0)) with false. cbv iota.
  rewrite (bind_Return _ _ _ _ _ _ (decode_Some _ _ h _ Hout)).
  pose proof (split_not_nil "010" text). by destruct (Text.split "010" text).
Qed.

(** ** The theorems at work *)

Lemma has_nvenc_h264_compat_witness :
  (has_nvenc_h264 example_dataset mx350 host_no_match []).1 = Return true
  <-> exists m, maximum_of (map (core_count example_dataset) ["GP107"; "GP108"]) m /\ 0 < m.
Proof.
  apply (has_nvenc_h264_compat example_dataset mx350 ["GP107"; "GP108"] host_no_match []).
  - apply not_brand_by_test. reflexivity.
  - apply not_dom_by_lookup. reflexivity.
  - apply not_dom_by_lookup. reflexivity.
  - reflexivity.
Defined.

(** C2, as stated, fails for a name of NONE that carries a family name:
    line 64 is tried before line 69. *)
Lemma has_nvenc_h264_none_counterexample :
  name quadro600 ∈ dom (NONE dataset_quadro_none)
  /\ has_nvenc_h264 dataset_quadro_none quadro600 host_no_match []
     = (Return true, [Log WARNING no_guarantee])
  /\ (has_nvenc_h264 dataset_quadro_none quadro600 host_no_match []).1 <> Return false.
Proof.
  split_and!.
  - by apply (dom_by_lookup _ _ tt).
  - reflexivity.
  - discriminate.
Qed.

Lemma has_nvenc_h264_none_witness :
  name gt1030 ∈ dom (NONE example_dataset)
  /\ has_nvenc_h264 example_dataset gt1030 host_no_match []
     = (Return false, [Log WARNING (no_core "GeForce GT 1030")]).
Proof.
  split.
  - by apply (dom_by_lookup _ _ tt).
  - apply (has_nvenc_h264_none example_dataset gt1030 host_no_match []).
    + by apply (dom_by_lookup _ _ tt).
    + apply not_brand_by_test. reflexivity.
Defined.

Lemma has_nvenc_h264_brand_witness :
  brand (name quadro600)
  /\ has_nvenc_h264 dataset_quadro_none quadro600 host_no_match []
     = (Return true, [Log WARNING no_guarantee]).
Proof.
  assert (brand (name quadro600)) as Hb by (left; by exists EmptyString, " 600").
  split; [exact Hb|].
  apply (has_nvenc_h264_brand dataset_quadro_none quadro600 host_no_match [] Hb).
Defined.

Lemma has_nvenc_h264_unregistered_witness :
  has_nvenc_h264 example_dataset gf8800 host_no_match []
  = (Return false, [Log WARNING (not_registered "GeForce 8800 GT")]).
Proof.
  apply (has_nvenc_h264_unregistered example_dataset gf8800 host_no_match []).
  - apply not_brand_by_test. reflexivity.
  - apply not_dom_by_lookup. reflexivity.
  - apply not_dom_by_lookup. reflexivity.
  - apply not_dom_by_lookup. reflexivity.
Defined.

Lemma has_nvenc_h264_empty_tags_witness :
  has_nvenc_h264 dataset_empty_tags rtx3080 host_no_match [] = (Raise ValueError, [])
  /\ exists b, (has_nvenc_h264 example_dataset rtx3080 host_no_match []).1 = Return b.
Proof.
  split.
  - apply (proj1 (has_nvenc_h264_empty_tags dataset_empty_tags)).
    + apply not_brand_by_test. reflexivity.
    + apply not_dom_by_lookup. reflexivity.
    + apply not_dom_by_lookup. reflexivity.
    + reflexivity.
  - apply (proj2 (has_nvenc_h264_empty_tags example_dataset)).
    change (map_Forall (fun _ (tags : list str) => tags <> []) (COMPAT example_dataset)).
    refine (bool_decide_unpack _ _). vm_compute. exact I.
Defined.

Lemma driver_version_gate_witness :
  number_of_nvenc_gpus example_dataset (host_driver "449" EmptyString) []
  = (Raise ValueError, [Run ["where"; "nvidia-smi"]; Run [smi_path]])
  /\ number_of_nvenc_gpus example_dataset (host_driver "440.10" EmptyString) []
     = (Return 0, [Run ["where"; "nvidia-smi"]; Run [smi_path];
                   Log DEBUG (driver_version "440.10" 440 10);
                   Log WARNING driver_too_old]).
Proof.
  split.
  - apply (proj1 (proj2 (driver_version_gate example_dataset))
             (host_driver "449" EmptyString) [] _ smi_path _ "449" "449"
             eq_refl eq_refl eq_refl eq_refl eq_refl).
  - apply (proj1 (proj1 (proj2 (proj2 (driver_version_gate example_dataset)))
                    (host_driver "440.10" EmptyString) [] _ smi_path _ "440.10" "440" "10"
                    eq_refl eq_refl eq_refl eq_refl eq_refl
                    ltac:(unfold Text.int_max_str_digits; simpl; lia)
                    ltac:(unfold Text.int_max_str_digits; simpl; lia))).
    reflexivity.
Defined.


Lemma parse_ignores_trailing_text_witness :
  parse "GPU 0: GeForce RTX 3080 (UUID: GPU-1234abcd) and more" host_no_match []
  = (Return rtx3080, []).
Proof.
  apply (parse_ignores_trailing_text
           "GPU 0: GeForce RTX 3080 (UUID: GPU-1234abcd) and more"
           "0" "GeForce RTX 3080" "GPU-1234abcd" " and more" host_no_match []);
    first [reflexivity | split; [discriminate|reflexivity]
          | unfold Text.int_max_str_digits; simpl; lia].
Defined.

(** C10, as stated, fails for an index of 4301 digits: the line starts
    as the pattern asks, and line 58 raises where the claim has a
    record. *)
Lemma parse_ignores_trailing_text_counterexample :
  run_of Text.is_digit long_index
  /\ run_of is_name_char "GeForce RTX 3080"
  /\ run_of is_uuid_char "GPU-1234abcd"
  /\ Text.strip long_index_line
     = gpu_line long_index "GeForce RTX 3080" "GPU-1234abcd" +:+ EmptyString
  /\ parse long_index_line host_no_match [] = (Raise ValueError, [])
  /\ (forall gpu tr', parse long_index_line host_no_match [] <> (Return gpu, tr')).
Proof.
  assert (parse long_index_line host_no_match [] = (Raise ValueError, [])) as E
    by (vm_compute; reflexivity).
  split_and!.
  - split; [discriminate|vm_compute; reflexivity].
  - split; [discriminate|reflexivity].
  - split; [discriminate|reflexivity].
  - vm_compute; reflexivity.
  - exact E.
  - intros gpu tr'. rewrite E. discriminate.
Qed.

Lemma number_of_nvenc_gpus_raises_witness :
  number_of_nvenc_gpus example_dataset (host_driver "450" EmptyString) []
  = (Raise ValueError, [Run ["where"; "nvidia-smi"]; Run [smi_path]]).
Proof.
  apply (proj1 (number_of_nvenc_gpus_raises example_dataset)
           (host_driver "450" EmptyString) [] _ smi_path _ "450"
           eq_refl eq_refl eq_refl eq_refl).
  discriminate.
Defined.

Lemma find_command_no_match_witness :
  find_command "nvidia-smi" host_no_match []
  = (Return (Some EmptyString), [Run ["where"; "nvidia-smi"]]).
Proof.
  apply (proj1 find_command_no_match "nvidia-smi" host_no_match [] EmptyString);
    reflexivity.
Defined.

(** * Further properties *)

(** ** More on [has_nvenc_h264] *)

Lemma foldl_min_le rest : forall x, foldl Z.min x rest <= x.
Proof.
  induction rest as [|y rest IH]; intros x; simpl; [lia|].
  specialize (IH (Z.min x y)). lia.
Qed.

Lemma foldl_min_minimum x rest : minimum_of (x :: rest) (foldl Z.min x rest).
Proof.
  revert x. induction rest as [|y rest IH]; intros x.
  - split; [apply elem_of_cons; by left|].
    intros z ?%list_elem_of_singleton. simpl. lia.
  - simpl. destruct (IH (Z.min x y)) as [Hin Hle]. split.
    + apply elem_of_cons in Hin as [Heq|Hin'].
      * rewrite Heq. destruct (Z.min_spec x y) as [[_ ->]|[_ ->]].
        -- apply elem_of_cons. by left.
        -- apply elem_of_cons. right. apply elem_of_cons. by left.
      * apply elem_of_cons. right. apply elem_of_cons. by right.
    + intros z [->|[->|Hz]%elem_of_cons]%elem_of_cons.
      * pose proof (foldl_min_le rest (Z.min x y)). lia.
      * pose proof (foldl_min_le rest (Z.min x y)). lia.
      * apply Hle, elem_of_cons. by right.
Qed.

Lemma minimum_of_unique l m m' : minimum_of l m -> minimum_of l m' -> m = m'.
Proof. intros [Hin Hle] [Hin' Hle']. apply Hle' in Hin. apply Hle in Hin'. lia. Qed.

Section MoreCapability.
Context {Marker : Type} (NVENC : nvenc_dataset Marker).
Implicit Types (gpu : NvidiaGPU) (h : host) (tr : trace).

(** X1.  A name that is a key of AMBIG and not of NONE is capable,
    whatever COMPAT says of it: by line 64 when it carries a family name,
    by line 72 otherwise. *)
Theorem has_nvenc_h264_ambig gpu h tr :
  name gpu ∈ dom (AMBIG NVENC) -> name gpu ∉ dom (NONE NVENC) ->
  (has_nvenc_h264 NVENC gpu h tr).1 = Return true
  /\ (~ brand (name gpu) ->
      has_nvenc_h264 NVENC gpu h tr
      = (Return true, tr ++ [Log WARNING (undetermined (name gpu))])).
Proof.
  intros Ha Hn. unfold has_nvenc_h264.
  apply has_key_dom in Ha. apply has_key_not_dom in Hn.
  split.
  - destruct (_ || _); [done|]. by rewrite Hn, Ha.
  - intros Hb. by rewrite (no_brand_test _ Hb), Hn, Ha.
Qed.

(** X2.  What lines 79-90 log for a name of COMPAT that no earlier rule
    catches, with [n] the least and [m] the greatest number of cores of
    its tags: one record with the number of cores when [n = m] and with
    the two bounds otherwise, each with [m] times THREADS_PER_CORE, then
    a warning when [n] is 0; and the result is [0 < m]. *)
Theorem has_nvenc_h264_compat_log gpu tags n m h tr :
  ~ brand (name gpu) -> name gpu ∉ dom (NONE NVENC) -> name gpu ∉ dom (AMBIG NVENC) ->
  COMPAT NVENC !! name gpu = Some tags ->
  minimum_of (map (core_count NVENC) tags) n ->
  maximum_of (map (core_count NVENC) tags) m ->
  has_nvenc_h264 NVENC gpu h tr
  = (Return (bool_decide (0 < m)),
     tr ++ [Log INFO (if bool_decide (n = m)
                      then cores_exact (name gpu) m (m * THREADS_PER_CORE)
                      else cores_range (name gpu) n m (m * THREADS_PER_CORE))]
        ++ (if bool_decide (n = 0)
            then [Log WARNING (maybe_no_core (name gpu))] else [])).
Proof.
  intros Hb Hn Ha Hc Hmin Hmax.
  rewrite (has_nvenc_h264_registered _ _ _ Hb Hn Ha Hc). cbv zeta.
  destruct (map _ tags) as [|x rest]; [by destruct Hmin as [?%elem_of_nil _]|].
  rewrite (minimum_of_unique _ _ _ Hmin (foldl_min_minimum x rest)).
  rewrite (maximum_of_unique _ _ _ Hmax (foldl_max_maximum x rest)).
  unfold mbind, M_bind, py_min, py_max, log, emit, mret, M_ret.
  repeat case_bool_decide;
    repeat match goal with
           | H : _ = _ :> Z |- _ => apply Z.eqb_eq in H; rewrite H
           | H : _ <> _ :> Z |- _ => apply Z.eqb_neq in H; rewrite H
           end; simpl; rewrite <- ?(assoc (++)), ?app_nil_r;
    f_equal; f_equal; lia.
Qed.
End MoreCapability.

(** ** More on [NvidiaGPU.parse] *)

Lemma digit_value_nonneg c : Text.is_digit c = true -> 0 <= Text.digit_value c.
Proof.
  unfold Text.is_digit, Text.between, Text.digit_value.
  intros [H _]%andb_prop. apply N.leb_le in H.
  change (Text.ord "0") with 48%N in H. lia.
Qed.

Lemma digits_value_nonneg s : forall acc,
  0 <= acc -> Text.all Text.is_digit s = true -> 0 <= Text.digits_value acc s.
Proof.
  induction s as [|c s IH]; intros acc Hacc; simpl; [done|].
  intros [Hc Hs]%andb_prop. apply IH; [|done].
  pose proof (digit_value_nonneg c Hc). lia.
Qed.

Lemma rstrip_idem s : Text.rstrip (Text.rstrip s) = Text.rstrip s.
Proof.
  induction s as [|c s IH]; [done|]. simpl.
  destruct (Text.is_space c && Text.is_empty (Text.rstrip s)) eqn:E; [done|].
  simpl. by rewrite IH, E.
Qed.

Lemma lstrip_rstrip_lstrip s :
  Text.lstrip (Text.rstrip (Text.lstrip s)) = Text.rstrip (Text.lstrip s).
Proof.
  induction s as [|c s IH]; [done|]. simpl.
  destruct (Text.is_space c) eqn:Hc; [done|].
  simpl. rewrite Hc. simpl. by rewrite Hc.
Qed.

(** [strip] changes nothing in a text that it has already stripped. *)
Lemma strip_idem s : Text.strip (Text.strip s) = Text.strip s.
Proof. unfold Text.strip. by rewrite lstrip_rstrip_lstrip, rstrip_idem. Qed.

(** X3.  [parse] gives the same record, and the same warning, for a line
    and for the line without its surrounding white space: the call of
    line 127, which strips the line first, changes nothing. *)
Theorem parse_strip line h tr : parse (Text.strip line) h tr = parse line h tr.
Proof. unfold parse. by rewrite strip_idem. Qed.

(** X4.  The index of the record that [parse] returns is -1 exactly
    when the stripped line does not start as
    [GPU <digits>: <name> (UUID: <uuid>)], and no other index is
    negative.  [parse] returns when the index of the line has no more
    digits than [int] converts; it raises nothing but the [ValueError] of
    line 58, before any log, and only for an index of more digits. *)
Theorem parse_index line h tr :
  (forall gpu tr', parse line h tr = (Return gpu, tr') ->
     (index gpu = -1 <-> ~ gpu_line_prefix (Text.strip line))
     /\ (gpu_line_prefix (Text.strip line) -> 0 <= index gpu))
  /\ (index_within_limit line -> exists gpu tr', parse line h tr = (Return gpu, tr'))
  /\ (forall e tr', parse line h tr = (Raise e, tr') ->
        e = ValueError /\ tr' = tr /\ ~ index_within_limit line).
Proof.
  destruct (Re.match_ NAME_PATTERN (Text.strip line)) as [g|] eqn:E.
  - assert (gpu_line_prefix (Text.strip line)) as Hp.
    { apply match_name_pattern_iff. by eexists. }
    destruct Hp as (d & n & u & rest & Hd & Hn & Hu & Hline).
    assert (0 <= Text.digits_value 0 d) as Hpos.
    { destruct Hd as [_ Hd]. by apply digits_value_nonneg. }
    destruct (le_lt_dec (String.length d) Text.int_max_str_digits) as [Hle|Hgt].
    + rewrite (parse_gpu_line line d n u rest h tr) by done. split_and!.
      * intros gpu tr' [= <- _]. simpl. split; [|done].
        split; [lia|]. intros []. by exists d, n, u, rest.
      * intros _. by eexists _, _.
      * done.
    + rewrite (parse_long_index line d n u rest h tr) by done. split_and!.
      * done.
      * intros Hlim. specialize (Hlim d n u rest Hd Hn Hu Hline). lia.
      * intros e tr' [= <- <-]. split_and!; [done..|].
        intros Hlim. specialize (Hlim d n u rest Hd Hn Hu Hline). lia.
  - assert (~ gpu_line_prefix (Text.strip line)) as Hno by by apply not_prefix_by_match.
    rewrite (parse_no_match line h tr Hno). split_and!.
    + by intros gpu tr' [= <- _].
    + intros _. by eexists _, _.
    + done.
Qed.

(** ** More on [find_command] *)

(** X5.  [find_command] returns [None] exactly when [where] exits with
    a code other than 0; then the output of [where] is not read, one
    warning is given and nothing is raised. *)
Theorem find_command_none cmd h tr :
  let proc := h (length (runs tr)) ["where"; cmd] in
  ((find_command cmd h tr).1 = Return None <-> returncode proc <> 0)
  /\ (returncode proc <> 0 ->
      find_command cmd h tr
      = (Return None, tr ++ [Run ["where"; cmd]]
                         ++ [Warn (where_failed cmd (returncode proc))])).
Proof.
  intros proc. unfold find_command.
  rewrite (bind_Return _ _ _ _ _ _ (sp_run_eq _ h tr)). cbv beta. fold proc.
  destruct (Z.eqb_spec (returncode proc) 0) as [Hrc|Hrc]; cbn [negb].
  - split; [|done]. split; [|done].
    unfold mbind, M_bind, decode. destruct (utf8 _) as [text|]; [|done].
    unfold mret, M_ret.
    pose proof (split_not_nil "010" text). by destruct (Text.split "010" text).
  - split; [done|]. intros _.
    unfold mbind, M_bind, warn, emit, mret, M_ret. by rewrite <- (assoc (++)).
Qed.

(** ** More on the driver version *)

Lemma search_None r s :
  Re.search r s = None <-> forall pre t, s = pre +:+ t -> Re.match_ r t = None.
Proof.
  split.
  - induction s as [|c s IH]; simpl.
    + destruct (Re.match_ r EmptyString) eqn:E; [done|]. intros _ pre t Hs.
      destruct pre; [|done]. rewrite sapp_nil_l in Hs. by subst.
    + destruct (Re.match_ r (String c s)) eqn:E; [done|]. intros Hs pre t Ht.
      destruct pre as [|b pre].
      * rewrite sapp_nil_l in Ht. by subst.
      * rewrite sapp_cons in Ht. injection Ht as _ Ht. by apply (IH Hs pre).
  - intros H. induction s as [|c s IH]; simpl.
    + by rewrite (H EmptyString EmptyString).
    + rewrite (H EmptyString (String c s)) by done. apply IH.
      intros pre t ->. by apply (H (String c pre)).
Qed.

Lemma denotes_version_pattern w :
  Re.denotes VERSION_PATTERN w <->
  exists v, version_words v /\ w = "Driver Version: " +:+ v.
Proof.
  unfold VERSION_PATTERN. split.
  - intros H.
    inversion H as [| | | | |? ? l v Hl Hg]; subst. inversion Hl; subst.
    inversion Hg as [| |? ? ? Hb| | |]; subst.
    inversion Hb as [| | | | |? ? d w2 Hd Hopt]; subst.
    inversion Hd; subst. rewrite (all_ext _ _ _ digit_has) in *.
    eexists. split; [|reflexivity]. exists d. split; [done|].
    inversion Hopt as [| | |? ? Hg2| |]; subst; [|left; by rewrite sapp_nil_r].
    inversion Hg2 as [| |? ? ? Hs| | |]; subst.
    inversion Hs as [| | | | |? ? ? d' Hl2 Hd2]; subst.
    inversion Hl2; subst. inversion Hd2; subst. rewrite (all_ext _ _ _ digit_has) in *.
    right. by exists d'.
  - intros (v & (d & [Hd Hd'] & Hv) & ->).
    apply Re.d_seq; [constructor|]. apply Re.d_group.
    assert (Re.denotes (Re.Plus [Re.Digit]) d) as Hplus.
    { constructor; [done|]. by rewrite (all_ext _ _ _ digit_has). }
    destruct Hv as [->|(d' & [He He'] & ->)].
    + rewrite <- (sapp_nil_r d). apply Re.d_seq; [done|apply Re.d_opt_none].
    + apply Re.d_seq; [done|]. apply Re.d_opt_some, Re.d_group.
      apply Re.d_seq; [constructor|].
      constructor; [done|]. by rewrite (all_ext _ _ _ digit_has).
Qed.

Lemma match_version_iff t :
  is_Some (Re.match_ VERSION_PATTERN t) <->
  exists c rest, t = "Driver Version: " +:+ String c rest /\ Text.is_digit c = true.
Proof.
  rewrite match_Some_iff. split.
  - intros (w & rest & -> & (v & (d & [Hd Hd'] & Hv) & ->)%denotes_version_pattern).
    destruct d as [|c d]; [done|]. simpl in Hd'. apply andb_prop in Hd' as [Hc _].
    exists c. destruct Hv as [->|(d' & _ & ->)]; eexists; (split; [|exact Hc]).
    + by rewrite sapp_assoc, sapp_cons.
    + by rewrite !sapp_assoc, !sapp_cons.
  - intros (c & rest & -> & Hc).
    exists ("Driver Version: " +:+ String c EmptyString), rest. split.
    + by rewrite sapp_assoc.
    + apply denotes_version_pattern. eexists. split; [|reflexivity].
      exists (String c EmptyString). split; [|by left].
      split; [done|]. simpl. by rewrite Hc.
Qed.

Lemma search_version_iff line :
  is_Some (Re.search VERSION_PATTERN line) <-> mentions_version line.
Proof.
  split.
  - intros [g (pre & t & -> & Hm)%search_sound].
    destruct (proj1 (match_version_iff t)) as (c & rest & -> & Hc); [by eexists|].
    by exists pre, c, rest.
  - intros (pre & c & rest & -> & Hc).
    destruct (Re.search VERSION_PATTERN _) as [g|] eqn:E; [by eexists|].
    pose proof (proj1 (search_None _ _) E pre _ eq_refl) as Hn.
    destruct (proj2 (match_version_iff ("Driver Version: " +:+ String c rest))) as [g Hg].
    { by exists c, rest. }
    congruence.
Qed.

(** X6.  Lines 104-109 find no version exactly when no line carries
    [Driver Version: ] with a digit after it. *)
Theorem find_version_none out :
  find_version out = None <-> forall line, line ∈ out -> ~ mentions_version line.
Proof.
  induction out as [|line out IH]; simpl.
  - split; [|done]. by intros _ line ?%elem_of_nil.
  - destruct (Re.search VERSION_PATTERN line) as [g|] eqn:E.
    + split; [done|]. intros H. destruct (H line).
      * apply elem_of_cons. by left.
      * apply search_version_iff. by eexists.
    + rewrite IH. split.
      * intros H l [->|Hl]%elem_of_cons; [|by apply H].
        intros [g Hg]%search_version_iff. congruence.
      * intros H l Hl. apply H, elem_of_cons. by right.
Qed.

Lemma plus_stops {R} cls (k : str -> option R) t :
  stops (Re.class_has cls) t -> Re.plus cls k t = None.
Proof. destruct t as [|c t]; [done|]. simpl. by intros ->. Qed.

Lemma stops_digit t : stops Text.is_digit t -> stops (Re.class_has [Re.Digit]) t.
Proof. destruct t as [|c t]; [done|]. unfold stops. by rewrite digit_has. Qed.

(** The version of a text that starts with [Driver Version: ] and two
    numbers with a dot between them. *)
Lemma match_version_two d d' rest :
  run_of Text.is_digit d -> run_of Text.is_digit d' -> stops Text.is_digit rest ->
  exists g, Re.match_ VERSION_PATTERN ("Driver Version: " +:+ d +:+ "." +:+ d' +:+ rest)
            = Some g /\ Re.group g 1 = d +:+ "." +:+ d'.
Proof.
  intros [Hd Hd'] [He He'] Hrest. unfold Re.match_, VERSION_PATTERN.
  cbn [Re.exec]. rewrite strip_prefix_app. cbv beta iota.
  rewrite (sapp_cons "." EmptyString), sapp_nil_l.
  eexists. split.
  - apply plus_greedy; [done|by rewrite (all_ext _ _ _ digit_has)|by apply plus_stop|].
    change (Text.strip_prefix "." (String "." ?x)) with (Some x). cbv beta iota.
    erewrite plus_greedy;
      [reflexivity|done|by rewrite (all_ext _ _ _ digit_has)
      |by apply plus_stops, stops_digit|reflexivity].
  - unfold Re.group. rewrite lookup_insert_eq. simpl.
    replace (d +:+ String "." (d' +:+ rest)) with ((d +:+ "." +:+ d') +:+ rest)
      by (by rewrite !sapp_assoc).
    apply consumed_app.
Qed.

Lemma strip_prefix_longer p q t :
  Text.strip_prefix p t = None -> Text.strip_prefix (p +:+ q) t = None.
Proof.
  revert t. induction p as [|a p IH]; intros t; [by destruct t|].
  rewrite sapp_cons. destruct t as [|b t]; simpl; [done|].
  destruct (Ascii.eqb a b); [apply IH|done].
Qed.

Lemma match_version_not_here t :
  Text.strip_prefix "Dr" t = None -> Re.match_ VERSION_PATTERN t = None.
Proof.
  intros H. unfold Re.match_, VERSION_PATTERN. cbn [Re.exec].
  change "Driver Version: " with ("Dr" +:+ "iver Version: ").
  by rewrite strip_prefix_longer.
Qed.

Lemma strip_prefix_cons a p c s :
  Text.strip_prefix (String a p) (String c s)
  = if Ascii.eqb a c then Text.strip_prefix p s else None.
Proof. reflexivity. Qed.

Lemma search_version_skip pre t :
  Text.contains "Dr" pre = false -> Text.strip_prefix "r" t = None ->
  Re.search VERSION_PATTERN (pre +:+ t) = Re.search VERSION_PATTERN t.
Proof.
  intros Hpre Ht. induction pre as [|c pre IH]; [done|].
  rewrite sapp_cons.
  change (Text.contains "Dr" (String c pre))
    with (match Text.strip_prefix "Dr" (String c pre) with
          | Some _ => true
          | None => Text.contains "Dr" pre
          end) in Hpre.
  destruct (Text.strip_prefix "Dr" (String c pre)) eqn:E; [done|].
  change (Re.search VERSION_PATTERN (String c (pre +:+ t)))
    with (match Re.match_ VERSION_PATTERN (String c (pre +:+ t)) with
          | Some g => Some g
          | None => Re.search VERSION_PATTERN (pre +:+ t)
          end).
  rewrite match_version_not_here; [by apply IH|].
  rewrite strip_prefix_cons in *. destruct (Ascii.eqb "D" c); [|done].
  destruct pre as [|b pre]; [by rewrite sapp_nil_l|].
  rewrite sapp_cons, strip_prefix_cons in *. by destruct (Ascii.eqb "r" b).
Qed.

Lemma search_here r s g : Re.match_ r s = Some g -> Re.search r s = Some g.
Proof. intros H. destruct s; simpl; by rewrite H. Qed.

(** X7.  Of a version with three numbers, the first two are taken: for
    a line with no [Dr] before [Driver Version: ], followed by two
    numbers with a dot between them and then by anything but a digit,
    the version found is made of these two numbers, and line 113 splits
    it into them. *)
Theorem find_version_two_numbers pre d d' rest out :
  run_of Text.is_digit d -> run_of Text.is_digit d' -> stops Text.is_digit rest ->
  Text.contains "Dr" pre = false ->
  find_version ((pre +:+ "Driver Version: " +:+ d +:+ "." +:+ d' +:+ rest) :: out)
  = Some (d +:+ "." +:+ d')
  /\ Text.split "." (d +:+ "." +:+ d') = [d; d'].
Proof.
  intros Hd He Hrest Hpre. split.
  - simpl. rewrite search_version_skip by done.
    destruct (match_version_two d d' rest Hd He Hrest) as (g & Hg & Hv).
    by rewrite (search_here _ _ _ Hg), Hv.
  - destruct Hd as [_ Hd], He as [_ He].
    rewrite (sapp_cons "." EmptyString d'), sapp_nil_l, split_at_sep
      by by apply (all_impl _ _ _ digit_not_dot).
    by rewrite split_no_sep by by apply (all_impl _ _ _ digit_not_dot).
Qed.

(** X8.  The version that lines 104-109 find splits at the dots into
    one or two runs of digits.  When none has more digits than [int]
    converts, the conversions of line 113 give one number for each, none
    of them negative; the conversions raise nothing but [ValueError], and
    only for a run of more digits. *)
Theorem version_numbers out version h tr :
  find_version out = Some version ->
  let words := Text.split "." version in
  let short := fun d => (String.length d <= Text.int_max_str_digits)%nat in
  (length words = 1%nat \/ length words = 2%nat)
  /\ Forall (run_of Text.is_digit) words
  /\ (Forall short words ->
      exists numbers,
        mapM int words h tr = (Return numbers, tr)
        /\ length numbers = length words
        /\ Forall (fun n => 0 <= n) numbers)
  /\ (forall e tr', mapM int words h tr = (Raise e, tr') ->
        e = ValueError /\ tr' = tr /\ ~ Forall short words).
Proof.
  intros Hv words short. subst words short.
  destruct (version_words_split _ (find_version_words _ _ Hv))
    as [(d & Hd & ->)|(d & d' & Hd & Hd' & ->)].
  - split_and!; [by left|by apply Forall_singleton|..].
    + intros [Hle _]%Forall_cons. eexists. split; [by apply mapM_int_one|].
      split; [done|]. repeat constructor. destruct Hd as [_ Hd].
      by apply digits_value_nonneg.
    + intros e tr'.
      destruct (le_lt_dec (String.length d) Text.int_max_str_digits) as [Hle|Hgt].
      * by rewrite mapM_int_one.
      * rewrite mapM_int_one_long by done. intros [= <- <-]. split_and!; [done..|].
        intros [Hle _]%Forall_cons. lia.
  - split_and!; [by right|by apply Forall_cons, conj, Forall_singleton|..].
    + intros [Hle [Hle' _]%Forall_cons]%Forall_cons.
      eexists. split; [by apply mapM_int_pair|]. split; [done|].
      destruct Hd as [_ Hd], Hd' as [_ Hd'].
      repeat constructor; by apply digits_value_nonneg.
    + intros e tr'.
      change (mapM int [d; d'])
        with (x ← int d; k ← (y ← int d'; k ← mret []; mret (y :: k)); mret (x :: k)).
      unfold mbind, M_bind.
      destruct (le_lt_dec (String.length d) Text.int_max_str_digits) as [Hle|Hgt].
      * rewrite (int_digits d h tr Hd Hle).
        destruct (le_lt_dec (String.length d') Text.int_max_str_digits) as [Hle'|Hgt'].
        -- by rewrite (int_digits d' h tr Hd' Hle').
        -- rewrite (int_too_long d' h tr Hgt'). intros [= <- <-]. split_and!; [done..|].
           intros [_ [Hle' _]%Forall_cons]%Forall_cons. lia.
      * rewrite (int_too_long d h tr Hgt). intros [= <- <-]. split_and!; [done..|].
        intros [Hle _]%Forall_cons. lia.
Qed.

(** ** More on [number_of_nvenc_gpus] *)

Section MoreNumber.
Context {Marker : Type} (NVENC : nvenc_dataset Marker).
Implicit Types (h : host) (tr : trace).

(** X9.  When [where] exits with a code other than 0, the driver is
    taken as absent: [number_of_nvenc_gpus] returns 0 after the warning
    of [find_command], and starts no other process. *)
Theorem number_of_nvenc_gpus_no_driver h tr :
  let proc := h (length (runs tr)) ["where"; "nvidia-smi"] in
  returncode proc <> 0 ->
  number_of_nvenc_gpus NVENC h tr
  = (Return 0, tr ++ [Run ["where"; "nvidia-smi"]]
                  ++ [Warn (where_failed "nvidia-smi" (returncode proc))]).
Proof.
  intros proc Hrc. unfold number_of_nvenc_gpus, find_command.
  unfold mbind at 1, M_bind at 1. unfold mbind at 1, M_bind at 1.
  rewrite sp_run_eq. fold proc.
  apply Z.eqb_neq in Hrc. rewrite Hrc. cbn [negb].
  unfold mbind, M_bind, warn, emit, mret, M_ret. by rewrite <- (assoc (++)).
Qed.

(** X10.  When [nvidia-smi] is found and exits with a code other than
    0, [number_of_nvenc_gpus] warns and returns 0; the output of the
    process is not read and the listing is not asked for. *)
Theorem number_of_nvenc_gpus_smi_fails h tr tr1 path :
  find_command "nvidia-smi" h tr = (Return (Some path), tr1) ->
  returncode (h (length (runs tr1)) [path]) <> 0 ->
  number_of_nvenc_gpus NVENC h tr
  = (Return 0, tr1 ++ [Run [path]]
                   ++ [Warn (smi_failed (returncode (h (length (runs tr1)) [path])))]).
Proof.
  intros Hfind Hrc. unfold number_of_nvenc_gpus.
  rewrite (bind_Return _ _ _ _ _ _ Hfind). cbv iota beta.
  rewrite (bind_Return _ _ _ _ _ _ (sp_run_eq _ _ _)). cbv beta.
  apply Z.eqb_neq in Hrc. rewrite Hrc. cbn [negb].
  unfold mbind, M_bind, warn, emit, mret, M_ret. by rewrite <- (assoc (++)).
Qed.

(** X11.  When no line of the output of [nvidia-smi] carries
    [Driver Version: ] with a digit after it, [number_of_nvenc_gpus] logs
    that the version was not read and returns 0 without asking for the
    listing. *)
Theorem number_of_nvenc_gpus_no_version h tr tr1 path text :
  find_command "nvidia-smi" h tr = (Return (Some path), tr1) ->
  returncode (h (length (runs tr1)) [path]) = 0 ->
  utf8 (stdout (h (length (runs tr1)) [path])) = Some text ->
  (forall line, line ∈ stripped_lines text -> ~ mentions_version line) ->
  number_of_nvenc_gpus NVENC h tr
  = (Return 0, tr1 ++ [Run [path]] ++ [Log WARNING version_not_parsed]).
Proof.
  intros Hfind Hrc Hout Hno.
  assert (find_version (stripped_lines text) = None) as Hver.
  { destruct (find_version (stripped_lines text)) as [v|] eqn:E; [|done].
    exfalso. revert Hno E. generalize (stripped_lines text) as out.
    induction out as [|line out IH]; [done|]. simpl. intros Hno.
    destruct (Re.search VERSION_PATTERN line) as [g|] eqn:Es.
    - intros _. apply (Hno line); [apply elem_of_cons; by left|].
      apply search_version_iff. by eexists.
    - apply IH. intros l Hl. apply Hno, elem_of_cons. by right. }
  to_line_113 Hfind Hrc Hout Hver.
  unfold mbind, M_bind, log, emit, mret, M_ret. by rewrite <- (assoc (++)).
Qed.

(** Lines 120-133, for a driver whose version passes the test of line
    115. *)
Lemma number_of_nvenc_gpus_listing h tr tr1 path version major minor :
  driver_found h tr tr1 path version major minor -> 450 <= major ->
  number_of_nvenc_gpus NVENC h tr
  = (let proc := listing_process h tr1 path in
     if negb (returncode proc =? 0) then
       err ← decode (stderr proc);
       warn (list_failed (returncode proc) (Text.strip err));;
       mret 0
     else
       listing ← decode (stdout proc);
       GPUs ← mapM parse (stripped_lines listing);
       let names :=
         if (0 <? length GPUs)%nat
         then " (" +:+ Text.join ", " (map name GPUs) +:+ ")"
         else EmptyString in
       log INFO (gpus_available (length GPUs) names);;
       capable ← filterM (has_nvenc_h264 NVENC) GPUs;
       mret (Z.of_nat (length capable)))
      h (tr1 ++ [Run [path]] ++ [Log DEBUG (driver_version version major minor)]
             ++ [Run [path; "-L"]]).
Proof.
  intros (Hfind & Hrc & text & a & b & Hout & Hver & Hsplit & Hla & Hlb & -> & ->) Hmajor.
  assert (run_of Text.is_digit a /\ run_of Text.is_digit b) as [Ha Hb].
  { destruct (version_words_split _ (find_version_words _ _ Hver))
      as [(d & _ & E)|(d & d' & Hd & Hd' & E)]; rewrite E in Hsplit; by simplify_eq. }
  to_line_113 Hfind Hrc Hout Hver. rewrite Hsplit.
  rewrite (bind_Return _ _ _ _ _ _ (mapM_int_pair a b h _ Ha Hb Hla Hlb)).
  cbv iota beta. apply Z.ltb_ge in Hmajor. rewrite Hmajor.
  unfold mbind at 1, M_bind at 1. simpl log. unfold log at 1, emit at 1.
  rewrite (bind_Return _ _ _ _ _ _ (sp_run_eq _ _ _)). cbv beta zeta.
  rewrite !runs_snoc, app_nil_r, length_app.
  replace (length (runs tr1) + length [[path]])%nat with (S (length (runs tr1)))
    by (simpl; lia).
  unfold listing_process. by rewrite <- !(assoc (++)).
Qed.

(** X12.  When the driver passes the test of line 115, with the two
    numbers of its version converted by [int], and the listing process
    exits with a code other than 0, [number_of_nvenc_gpus] warns with the code and with what the process
    wrote on its error stream, stripped, and returns 0; what it wrote on
    its output is not read. *)
Theorem number_of_nvenc_gpus_list_fails h tr tr1 path version major minor err :
  driver_found h tr tr1 path version major minor -> 450 <= major ->
  returncode (listing_process h tr1 path) <> 0 ->
  utf8 (stderr (listing_process h tr1 path)) = Some err ->
  number_of_nvenc_gpus NVENC h tr
  = (Return 0,
     tr1 ++ [Run [path]] ++ [Log DEBUG (driver_version version major minor)]
         ++ [Run [path; "-L"]]
         ++ [Warn (list_failed (returncode (listing_process h tr1 path))
                               (Text.strip err))]).
Proof.
  intros Hdrv Hmajor Hrc Herr.
  rewrite (number_of_nvenc_gpus_listing _ _ _ _ _ _ _ Hdrv Hmajor). cbv zeta.
  apply Z.eqb_neq in Hrc. rewrite Hrc. cbn [negb].
  rewrite (bind_Return _ _ _ _ _ _ (decode_Some _ _ h _ Herr)).
  unfold mbind, M_bind, warn, emit, mret, M_ret. by rewrite <- !(assoc (++)).
Qed.
End MoreNumber.

(** ** The count of [number_of_nvenc_gpus] *)

Lemma oblivious_parse line : oblivious (parse line).
Proof.
  intros h tr h' tr'. unfold parse.
  destruct (Re.match_ _ _) as [g|]; [|done].
  unfold mbind, M_bind, int. by destruct (Text.int _).
Qed.

Lemma oblivious_has_nvenc_h264 {Marker} (NVENC : nvenc_dataset Marker) gpu :
  oblivious (has_nvenc_h264 NVENC gpu).
Proof.
  intros h tr h' tr'. unfold has_nvenc_h264.
  repeat match goal with
         | |- context [if ?b then _ else _] => destruct b
         end; try done.
  unfold getitem. destruct (COMPAT NVENC !! name gpu) as [tags|]; [|done].
  unfold mbind, M_bind, py_min, py_max, log, emit, mret, M_ret. cbv zeta beta iota.
  destruct (map _ tags) as [|x rest]; [done|].
  by destruct (_ =? foldl Z.max x rest), (_ =? 0).
Qed.

Lemma value_of_eq {A} (m : M A) h tr : oblivious m -> (m h tr).1 = value_of m.
Proof. intros H. apply H. Qed.

(** Line 127 gives the records of the lines, in their order, when
    [int] converts their indexes. *)
Lemma mapM_parse_records lines :
  Forall index_within_limit lines -> forall h tr,
  exists tr', mapM parse lines h tr = (Return (map record_of lines), tr').
Proof.
  induction 1 as [|line lines Hlim _ IH]; intros h tr; [by exists tr|].
  destruct (parse_returns line h tr Hlim) as (gpu & tr1 & Hp & _).
  destruct (IH h tr1) as (tr2 & Hm). exists tr2.
  change (mapM parse (line :: lines)) with (y ← parse line; k ← mapM parse lines; mret (y :: k)).
  rewrite (bind_Return _ _ _ _ _ _ Hp), (bind_Return _ _ _ _ _ _ Hm).
  simpl. unfold record_of.
  rewrite <- (value_of_eq _ h tr (oblivious_parse line)). by rewrite Hp.
Qed.

Section Count.
Context {Marker : Type} (NVENC : nvenc_dataset Marker).
Implicit Types (h : host) (tr : trace).

Lemma has_nvenc_h264_returns gpu h tr :
  (forall n tags, COMPAT NVENC !! n = Some tags -> tags <> []) ->
  exists tr', has_nvenc_h264 NVENC gpu h tr = (Return (capable NVENC gpu), tr').
Proof.
  intros Hne. unfold capable.
  rewrite <- (value_of_eq _ h tr (oblivious_has_nvenc_h264 NVENC gpu)).
  unfold has_nvenc_h264.
  destruct (_ || _); [by eexists|].
  destruct (has_key (NONE NVENC) _); [by eexists|].
  destruct (has_key (AMBIG NVENC) _); [by eexists|].
  unfold has_key, getitem.
  destruct (COMPAT NVENC !! name gpu) as [tags|] eqn:Hc; [|by eexists].
  specialize (Hne _ _ Hc). destruct tags as [|tag tags]; [done|].
  unfold mbind, M_bind, py_min, py_max, log, emit, mret, M_ret. simpl.
  destruct (_ =? _), (_ =? 0); by eexists.
Qed.

(** Line 133 keeps the records for which [has_nvenc_h264] returns
    [True]. *)
Lemma filterM_capable GPUs :
  (forall n tags, COMPAT NVENC !! n = Some tags -> tags <> []) ->
  forall h tr, exists tr',
    filterM (has_nvenc_h264 NVENC) GPUs h tr
    = (Return (List.filter (capable NVENC) GPUs), tr').
Proof.
  intros Hne. induction GPUs as [|gpu GPUs IH]; intros h tr; [by exists tr|].
  destruct (has_nvenc_h264_returns gpu h tr Hne) as (tr1 & Hg).
  destruct (IH h tr1) as (tr2 & Hf). exists tr2. simpl.
  rewrite (bind_Return _ _ _ _ _ _ Hg), (bind_Return _ _ _ _ _ _ Hf).
  unfold mret, M_ret. by destruct (capable NVENC gpu).
Qed.

(** X13.  When the driver passes the test of line 115, with the two
    numbers of its version converted by [int], the listing process exits
    with code 0, no line of the listing has an index of more digits than
    [int] converts, and no entry of COMPAT is empty,
    [number_of_nvenc_gpus] returns the number of the lines of the listing
    that are not blank and whose record is capable; it is at most the
    number of these lines. *)
Theorem number_of_nvenc_gpus_count h tr tr1 path version major minor listing :
  driver_found h tr tr1 path version major minor -> 450 <= major ->
  returncode (listing_process h tr1 path) = 0 ->
  utf8 (stdout (listing_process h tr1 path)) = Some listing ->
  Forall index_within_limit (stripped_lines listing) ->
  (forall n tags, COMPAT NVENC !! n = Some tags -> tags <> []) ->
  let GPUs := map record_of (stripped_lines listing) in
  (number_of_nvenc_gpus NVENC h tr).1
    = Return (Z.of_nat (length (List.filter (capable NVENC) GPUs)))
  /\ (length (List.filter (capable NVENC) GPUs) <= length (stripped_lines listing))%nat.
Proof.
  intros Hdrv Hmajor Hrc Hout Hlim Hne GPUs. split.
  - rewrite (number_of_nvenc_gpus_listing _ _ _ _ _ _ _ _ Hdrv Hmajor). cbv zeta.
    rewrite Hrc. change (negb (0 =? 0)) with false. cbv iota.
    rewrite (bind_Return _ _ _ _ _ _ (decode_Some _ _ h _ Hout)).
    destruct (mapM_parse_records (stripped_lines listing) Hlim h
                (tr1 ++ [Run [path]] ++ [Log DEBUG (driver_version version major minor)]
                     ++ [Run [path; "-L"]])) as (tr2 & Hm).
    rewrite (bind_Return _ _ _ _ _ _ Hm). fold GPUs.
    unfold mbind at 1, M_bind at 1, log, emit. cbv beta iota.
    match goal with
    | |- ((_ ≫= _) h ?t).1 = _ =>
        destruct (filterM_capable GPUs Hne h t) as (tr3 & Hf)
    end.
    by rewrite (bind_Return _ _ _ _ _ _ Hf).
  - rewrite <- (length_map record_of (stripped_lines listing)). apply filter_length_le.
Qed.
End Count.

(** ** What [number_of_nvenc_gpus] never does *)

Lemma never_negative_bind {A} (m : M A) (f : A -> M Z) :
  (forall a, never_negative (f a)) -> never_negative (m ≫= f).
Proof.
  intros Hf h tr n. unfold mbind, M_bind.
  destruct (m h tr) as [[a|e] tr']; [apply Hf|done].
Qed.

Lemma never_negative_ret n : 0 <= n -> never_negative (mret n).
Proof. by intros Hn h tr k [= <-]. Qed.

Lemma never_negative_raise e : never_negative (raise e).
Proof. by intros h tr n. Qed.

Ltac never_negative_step :=
  lazymatch goal with
  | |- never_negative (_ ≫= _) => apply never_negative_bind; intros ?
  | |- never_negative (mret _) => apply never_negative_ret; lia
  | |- never_negative (raise _) => apply never_negative_raise
  | |- never_negative (if ?b then _ else _) => destruct b
  | |- never_negative (match ?x with _ => _ end) => destruct x
  end.

Lemma starts_within_quiet {A} l (m : M A) : quiet m -> starts_within l m.
Proof.
  intros Hq h tr. exists []. rewrite Hq, app_nil_r. split; [done|]. apply prefix_nil.
Qed.

Lemma starts_within_bind_quiet {A B} l (m : M A) (f : A -> M B) :
  quiet m -> (forall a, starts_within l (f a)) -> starts_within l (m ≫= f).
Proof.
  intros Hq Hf h tr. specialize (Hq h tr). unfold mbind, M_bind.
  destruct (m h tr) as [[a|e] tr']; simpl in Hq.
  - destruct (Hf a h tr') as (ps & Hps & Hpre). exists ps. by rewrite Hps, Hq.
  - exists []. simpl. rewrite Hq, app_nil_r. split; [done|]. apply prefix_nil.
Qed.

Lemma starts_within_run {A} l args (f : CompletedProcess -> M A) :
  (forall proc, starts_within l (f proc)) -> starts_within (args :: l) (sp_run args ≫= f).
Proof.
  intros Hf h tr. unfold mbind, M_bind, sp_run.
  destruct (Hf (h (length (runs tr)) args) h (tr ++ [Run args])) as (ps & Hps & Hpre).
  exists (args :: ps). rewrite Hps, runs_snoc, <- (assoc (++)). split; [done|].
  by apply prefix_cons.
Qed.

Section Never.
Context {Marker : Type} (NVENC : nvenc_dataset Marker).
Implicit Types (h : host) (tr : trace).

(** X14.  Whatever the processes answer and whatever the dataset holds,
    a number that [number_of_nvenc_gpus] returns is not negative. *)
Theorem number_of_nvenc_gpus_not_negative h tr n :
  (number_of_nvenc_gpus NVENC h tr).1 = Return n -> 0 <= n.
Proof.
  revert h tr n. change (never_negative (number_of_nvenc_gpus NVENC)).
  unfold number_of_nvenc_gpus. cbv zeta.
  repeat never_negative_step.
Qed.

(** Lines 98-133, with [nvidia-smi] found at [path]. *)
Lemma after_find_command_starts path :
  starts_within [[path]; [path; "-L"]]
    (proc ← sp_run [path];
     if negb (returncode proc =? 0) then
       warn (smi_failed (returncode proc));;
       mret 0
     else
       text ← decode (stdout proc);
       let out := stripped_lines text in
       match find_version out with
       | None =>
           log WARNING version_not_parsed;;
           mret 0
       | Some version =>
           numbers ← mapM int (Text.split "." version);
           match numbers with
           | [major; minor] =>
               log DEBUG (driver_version version major minor);;
               if major <? 450 then
                 log WARNING driver_too_old;;
                 mret 0
               else
                 proc ← sp_run [path; "-L"];
                 if negb (returncode proc =? 0) then
                   err ← decode (stderr proc);
                   warn (list_failed (returncode proc) (Text.strip err));;
                   mret 0
                 else
                   listing ← decode (stdout proc);
                   GPUs ← mapM parse (stripped_lines listing);
                   let names :=
                     if (0 <? length GPUs)%nat
                     then " (" +:+ Text.join ", " (map name GPUs) +:+ ")"
                     else EmptyString in
                   log INFO (gpus_available (length GPUs) names);;
                   capable ← filterM (has_nvenc_h264 NVENC) GPUs;
                   mret (Z.of_nat (length capable))
           | _ => raise ValueError
           end
       end).
Proof.
  apply starts_within_run. intros proc.
  destruct (negb _); [apply starts_within_quiet; quiet_steps|].
  apply starts_within_bind_quiet; [apply quiet_decode|]. intros text. cbv zeta.
  destruct (find_version _) as [version|]; [|apply starts_within_quiet; quiet_steps].
  apply starts_within_bind_quiet; [apply quiet_mapM, quiet_int|]. intros numbers.
  destruct numbers as [|major [|minor [|]]];
    try solve [apply starts_within_quiet; quiet_steps].
  apply starts_within_bind_quiet; [apply quiet_log|]. intros _.
  destruct (major <? 450); [apply starts_within_quiet; quiet_steps|].
  apply starts_within_run. intros proc'. apply starts_within_quiet.
  destruct (negb _); quiet_steps.
Qed.

(** X15.  [number_of_nvenc_gpus] starts at most three processes and no
    other than these: [where nvidia-smi] always, then the path that
    [find_command] returned, then this path with [-L], each only after
    the one before. *)
Theorem number_of_nvenc_gpus_processes h tr :
  exists ps,
    runs (number_of_nvenc_gpus NVENC h tr).2 = runs tr ++ ["where"; "nvidia-smi"] :: ps
    /\ match (find_command "nvidia-smi" h tr).1 with
       | Return (Some path) => ps `prefix_of` [[path]; [path; "-L"]]
       | _ => ps = []
       end.
Proof.
  unfold number_of_nvenc_gpus.
  destruct (find_command "nvidia-smi" h tr) as [[[path|]|e] tr1] eqn:Hf;
    pose proof (find_command_runs _ _ _ _ _ Hf) as Hr; cbn [fst].
  - rewrite (bind_Return _ _ _ _ _ _ Hf). cbv beta iota.
    destruct (after_find_command_starts path h tr1) as (ps & Hps & Hpre).
    exists ps. split; [|done].
    transitivity (runs tr1 ++ ps); [exact Hps|]. by rewrite Hr, <- (assoc (++)).
  - rewrite (bind_Return _ _ _ _ _ _ Hf). exists []. split; [exact Hr|done].
  - rewrite (bind_Raise _ _ _ _ _ _ Hf). exists []. split; [exact Hr|done].
Qed.
End Never.

(** ** The exceptions *)












Section Exceptions.
Context {Marker : Type} (NVENC : nvenc_dataset Marker).
Implicit Types (h : host) (tr : trace).

(** X16.  The only exception of [has_nvenc_h264] is the [ValueError] of
    [min] at line 80: the lookup [COMPAT[name]] of line 79 comes after
    the test of line 75 and never raises [KeyError]. *)
Theorem has_nvenc_h264_raises_only gpu h tr e :
  (has_nvenc_h264 NVENC gpu h tr).1 = Raise e ->
  e = ValueError /\ COMPAT NVENC !! name gpu = Some [].
Proof.
  unfold has_nvenc_h264.
  destruct (_ || _); [done|].
  destruct (has_key (NONE NVENC) _); [done|].
  destruct (has_key (AMBIG NVENC) _); [done|].
  unfold has_key, getitem.
  destruct (COMPAT NVENC !! name gpu) as [tags|] eqn:Hc; [|done].
  destruct tags as [|tag tags]; [by intros [= <-]|].
  unfold mbind, M_bind, py_min, py_max, log, emit, mret, M_ret. simpl.
  by destruct (_ =? _), (_ =? 0).
Qed.



End Exceptions.

(** ** The log of the listing *)

Lemma extends_has_nvenc_h264 {Marker} (NVENC : nvenc_dataset Marker) gpu :
  extends (has_nvenc_h264 NVENC gpu).
Proof.
  intros h tr. unfold has_nvenc_h264.
  destruct (_ || _); [by eexists|].
  destruct (has_key (NONE NVENC) _); [by eexists|].
  destruct (has_key (AMBIG NVENC) _); [by eexists|].
  unfold has_key, getitem.
  destruct (COMPAT NVENC !! name gpu) as [tags|]; [|by eexists].
  destruct tags as [|tag tags]; [exists []; by rewrite app_nil_r|].
  unfold mbind, M_bind, py_min, py_max, log, emit, mret, M_ret. simpl.
  destruct (_ =? _), (_ =? 0); simpl; eexists;
    (reflexivity || (rewrite <- (assoc (++)); reflexivity)).
Qed.

Lemma extends_filterM {A} (p : A -> M bool) l :
  (forall a, extends (p a)) -> extends (filterM p l).
Proof.
  intros Hp. induction l as [|x l IH]; intros h tr; [exists []; by rewrite app_nil_r|].
  simpl. unfold mbind, M_bind.
  destruct (Hp x h tr) as (more1 & H1). destruct (p x h tr) as [[b|e] tr1]; simpl in H1.
  - destruct (IH h tr1) as (more2 & H2).
    destruct (filterM p l h tr1) as [[k|e] tr2]; simpl in *;
      exists (more1 ++ more2); by rewrite H2, H1, <- (assoc (++)).
  - by exists more1.
Qed.

Section ListingLog.
Context {Marker : Type} (NVENC : nvenc_dataset Marker).
Implicit Types (h : host) (tr : trace).

(** X18.  When the driver passes the test of line 115, with the two
    numbers of its version converted by [int], the listing process exits
    with code 0 and no line of the listing has an index of more digits
    than [int] converts, the number of GPUs that line 132 logs is the
    number of the lines of the listing that are not blank, with the names
    of their records in the order of the lines: the lines that could not
    be read are among them, under the name of line 57, whatever number is
    returned. *)
Theorem number_of_nvenc_gpus_logs_lines h tr tr1 path version major minor listing :
  driver_found h tr tr1 path version major minor -> 450 <= major ->
  returncode (listing_process h tr1 path) = 0 ->
  utf8 (stdout (listing_process h tr1 path)) = Some listing ->
  Forall index_within_limit (stripped_lines listing) ->
  let GPUs := map record_of (stripped_lines listing) in
  Log INFO (gpus_available
              (length (stripped_lines listing))
              (if (0 <? length GPUs)%nat
               then " (" +:+ Text.join ", " (map name GPUs) +:+ ")"
               else EmptyString))
  ∈ (number_of_nvenc_gpus NVENC h tr).2.
Proof.
  intros Hdrv Hmajor Hrc Hout Hlim GPUs.
  rewrite (number_of_nvenc_gpus_listing _ _ _ _ _ _ _ _ Hdrv Hmajor). cbv zeta.
  rewrite Hrc. change (negb (0 =? 0)) with false. cbv iota.
  rewrite (bind_Return _ _ _ _ _ _ (decode_Some _ _ h _ Hout)).
  destruct (mapM_parse_records (stripped_lines listing) Hlim h
              (tr1 ++ [Run [path]] ++ [Log DEBUG (driver_version version major minor)]
                   ++ [Run [path; "-L"]])) as (tr2 & Hm).
  rewrite (bind_Return _ _ _ _ _ _ Hm). fold GPUs.
  unfold mbind at 1, M_bind at 1, log, emit. cbv beta iota.
  match goal with
  | |- _ ∈ ((?m ≫= ?f) h ?t).2 =>
      destruct (extends_filterM _ GPUs (extends_has_nvenc_h264 NVENC) h t) as (more & Hmore);
      assert (((m ≫= f) h t).2 = (m h t).2) as ->
  end.
  { unfold mbind, M_bind. by destruct (filterM _ GPUs h _) as [[k|e] tr3]. }
  rewrite Hmore. apply elem_of_app. left. apply elem_of_app. right.
  apply elem_of_cons. left. unfold GPUs. by rewrite length_map.
Qed.
End ListingLog.

(** ** The path that [find_command] returns *)

Lemma rstrip_space_end s c :
  Text.is_space c = true -> Text.rstrip (s +:+ String c EmptyString) = Text.rstrip s.
Proof.
  intros Hc. induction s as [|a s IH].
  - rewrite sapp_nil_l. simpl. by rewrite Hc.
  - rewrite sapp_cons. simpl. by rewrite IH.
Qed.

Lemma lstrip_space_end s c :
  Text.is_space c = true ->
  Text.lstrip (s +:+ String c EmptyString)
  = if Text.is_empty (Text.lstrip s) then EmptyString
    else Text.lstrip s +:+ String c EmptyString.
Proof.
  intros Hc. induction s as [|a s IH].
  - rewrite sapp_nil_l. simpl. by rewrite Hc.
  - rewrite sapp_cons. simpl. destruct (Text.is_space a); [apply IH|done].
Qed.

Lemma strip_space_end s c :
  Text.is_space c = true -> Text.strip (s +:+ String c EmptyString) = Text.strip s.
Proof.
  intros Hc. unfold Text.strip. rewrite lstrip_space_end by done.
  destruct (Text.lstrip s) as [|a t] eqn:E; [done|].
  simpl Text.is_empty. cbv iota. by apply rstrip_space_end.
Qed.

(** White space at the end of a text does not count for [strip]. *)
Lemma strip_spaces_end ws : forall s,
  Text.all Text.is_space ws = true -> Text.strip (s +:+ ws) = Text.strip s.
Proof.
  induction ws as [|c ws IH]; intros s; [by rewrite sapp_nil_r|].
  simpl. intros [Hc Hws]%andb_prop.
  replace (s +:+ String c ws) with ((s +:+ String c EmptyString) +:+ ws)
    by by rewrite sapp_assoc.
  rewrite IH by done. by apply strip_space_end.
Qed.

(** X19.  After [where] exits with code 0, [find_command] returns the
    first line of its output without the white space around it: the
    first of several paths, and without the carriage return that may
    come before the line feed. *)
Theorem find_command_first_path cmd h tr line ws rest :
  let proc := h (length (runs tr)) ["where"; cmd] in
  returncode proc = 0 ->
  utf8 (stdout proc) = Some (line +:+ ws +:+ LF +:+ rest) ->
  Text.all (fun c => negb (Ascii.eqb c "010")) (line +:+ ws) = true ->
  Text.all Text.is_space ws = true ->
  find_command cmd h tr = (Return (Some (Text.strip line)), tr ++ [Run ["where"; cmd]]).
Proof.
  intros proc Hrc Hout Hlf Hws. unfold find_command.
  rewrite (bind_Return _ _ _ _ _ _ (sp_run_eq _ h tr)). cbv beta. fold proc.
  rewrite Hrc. change (negb (0 =? 0)) with false. cbv iota.
  rewrite (bind_Return _ _ _ _ _ _ (decode_Some _ _ h _ Hout)). cbv zeta.
  replace (line +:+ ws +:+ LF +:+ rest) with ((line +:+ ws) +:+ String "010" rest)
    by by rewrite sapp_assoc.
  rewrite split_at_sep by done. simpl. by rewrite strip_spaces_end.
Qed.

(** ** The lines of an output *)

Lemma split_app sep s t :
  Text.split sep (s +:+ String sep t) = Text.split sep s ++ Text.split sep t.
Proof.
  induction s as [|c s IH].
  - rewrite sapp_nil_l. simpl. by rewrite Ascii.eqb_refl.
  - rewrite sapp_cons. simpl. rewrite IH.
    destruct (Ascii.eqb c sep); [done|].
    pose proof (split_not_nil sep s). by destruct (Text.split sep s).
Qed.

Lemma lstrip_spaces ws : Text.all Text.is_space ws = true -> Text.lstrip ws = EmptyString.
Proof.
  induction ws as [|c ws IH]; [done|]. simpl. intros [-> Hws]%andb_prop. by apply IH.
Qed.

Lemma split_all p sep s :
  Text.all p s = true -> Forall (fun l => Text.all p l = true) (Text.split sep s).
Proof.
  induction s as [|c s IH]; [by repeat constructor|].
  simpl. intros [Hc Hs]%andb_prop. specialize (IH Hs).
  destruct (Ascii.eqb c sep); [by constructor|].
  destruct (Text.split sep s) as [|l ls]; [by repeat constructor; simpl; rewrite Hc|].
  inversion IH as [|? ? Hl Hls]; subst. constructor; [|done]. simpl. by rewrite Hc, Hl.
Qed.

Lemma strip_spaces l : Text.all Text.is_space l = true -> Text.strip l = EmptyString.
Proof. intros Hl. unfold Text.strip. by rewrite lstrip_spaces. Qed.

Lemma stripped_lines_spaces ws :
  Text.all Text.is_space ws = true -> stripped_lines ws = [].
Proof.
  intros Hws. unfold stripped_lines.
  pose proof (split_all _ "010" _ Hws) as Hall.
  induction Hall as [|l ls Hl _ IH]; [done|].
  cbn [List.filter]. cbv beta. by rewrite (strip_spaces l Hl).
Qed.

(** X20.  The lines that lines 102 and 127 keep from an output are
    those of its parts: the lines of a text, a line feed and another text
    are the lines of the first followed by those of the second, and a
    line of white space between two line feeds adds none. *)
Theorem stripped_lines_app s t ws :
  stripped_lines (s +:+ LF +:+ t) = stripped_lines s ++ stripped_lines t
  /\ (Text.all Text.is_space ws = true ->
      stripped_lines (s +:+ LF +:+ ws +:+ LF +:+ t) = stripped_lines (s +:+ LF +:+ t)).
Proof.
  assert (forall a b, stripped_lines (a +:+ LF +:+ b) = stripped_lines a ++ stripped_lines b)
    as Happ.
  { intros a b. unfold stripped_lines.
    change (a +:+ LF +:+ b) with (a +:+ String "010" b).
    by rewrite split_app, List.filter_app, map_app. }
  split; [apply Happ|]. intros Hws.
  by rewrite !Happ, (stripped_lines_spaces ws Hws).
Qed.

(** X21.  The loop of lines 105-109 stops at the first line that
    carries a version: the lines before it, which carry none, and the
    lines after it, whatever they carry, do not count. *)
Theorem find_version_first before line after :
  (forall l, l ∈ before -> ~ mentions_version l) -> mentions_version line ->
  find_version (before ++ line :: after) = find_version [line]
  /\ is_Some (find_version [line]).
Proof.
  intros Hbefore [g Hg]%search_version_iff. split.
  - induction before as [|l before IH]; simpl.
    + by rewrite Hg.
    + destruct (Re.search VERSION_PATTERN l) as [g'|] eqn:E.
      * destruct (Hbefore l); [apply elem_of_cons; by left|].
        apply search_version_iff. by eexists.
      * apply IH. intros l' Hl'. apply Hbefore, elem_of_cons. by right.
  - simpl. rewrite Hg. by eexists.
Qed.

(** ** The further theorems at work *)

Lemma driver_found_example listing :
  driver_found (host_driver "450.80.02" listing) []
    [Run ["where"; "nvidia-smi"]] smi_path "450.80" 450 80.
Proof.
  split; [reflexivity|]. split; [reflexivity|].
  exists (banner_450_80_02 +:+ LF), "450", "80".
  split_and!; first [reflexivity | apply short_by_test; reflexivity].
Qed.

Lemma has_nvenc_h264_ambig_witness :
  (has_nvenc_h264 example_dataset (mkGPU 0 "GeForce GTX 750" "GPU-1") host_no_match []).1
  = Return true.
Proof.
  apply (has_nvenc_h264_ambig example_dataset (mkGPU 0 "GeForce GTX 750" "GPU-1")
           host_no_match []).
  - by apply (dom_by_lookup _ _ tt).
  - apply not_dom_by_lookup. reflexivity.
Defined.

Lemma has_nvenc_h264_compat_log_witness :
  has_nvenc_h264 example_dataset mx350 host_no_match []
  = (Return true, [Log INFO (cores_range "GeForce MX350" 0 1 3);
                   Log WARNING (maybe_no_core "GeForce MX350")]).
Proof.
  apply (has_nvenc_h264_compat_log example_dataset mx350 ["GP107"; "GP108"] 0 1
           host_no_match []).
  - apply not_brand_by_test. reflexivity.
  - apply not_dom_by_lookup. reflexivity.
  - apply not_dom_by_lookup. reflexivity.
  - reflexivity.
  - split.
    + apply elem_of_cons. right. apply elem_of_cons. by left.
    + intros x [->|[->|[]%elem_of_nil]%elem_of_cons]%elem_of_cons; done.
  - split.
    + apply elem_of_cons. by left.
    + intros x [->|[->|[]%elem_of_nil]%elem_of_cons]%elem_of_cons; done.
Defined.

Lemma parse_index_witness :
  (exists gpu tr', parse "GPU 0: GeForce RTX 3080" host_no_match [] = (Return gpu, tr')
     /\ index gpu = -1)
  /\ ~ index_within_limit long_index_line.
Proof.
  split.
  - destruct (parse_index "GPU 0: GeForce RTX 3080" host_no_match [])
      as (Hi & Hret & _).
    destruct (Hret (short_line_by_test "GPU 0: GeForce RTX 3080" eq_refl))
      as (gpu & tr' & Hp).
    exists gpu, tr'. split; [exact Hp|].
    apply (Hi gpu tr' Hp). apply not_prefix_by_match. reflexivity.
  - destruct (parse_index long_index_line host_no_match []) as (_ & _ & Hraise).
    apply (Hraise ValueError []). vm_compute. reflexivity.
Defined.

Lemma find_command_none_witness :
  find_command "nvidia-smi" host_no_where []
  = (Return None, [Run ["where"; "nvidia-smi"]; Warn (where_failed "nvidia-smi" 1)]).
Proof.
  apply (proj2 (find_command_none "nvidia-smi" host_no_where [])). discriminate.
Defined.

Lemma find_version_none_witness :
  find_version ["No devices were found"] = None.
Proof.
  apply (proj2 (find_version_none ["No devices were found"])).
  intros line ->%list_elem_of_singleton [g Hg]%search_version_iff. discriminate.
Defined.

Lemma find_version_two_numbers_witness :
  find_version [banner_450_80_02] = Some "450.80"
  /\ Text.split "." "450.80" = ["450"; "80"].
Proof.
  apply (find_version_two_numbers "| NVIDIA-SMI 450.80.02       " "450" "80"
           ".02       CUDA Version: 11.0     |" []);
    (reflexivity || (split; [discriminate|reflexivity])).
Defined.

Lemma version_numbers_witness :
  exists numbers,
    mapM int (Text.split "." "450.80") host_no_match [] = (Return numbers, [])
    /\ length numbers = 2%nat
    /\ Forall (fun n => 0 <= n) numbers.
Proof.
  pose proof (version_numbers [banner_450_80_02] "450.80" host_no_match [] eq_refl) as H.
  cbv zeta in H. destruct H as (_ & _ & Hret & _).
  apply Hret. change (Text.split "." "450.80") with ["450"; "80"].
  apply Forall_cons, conj; [|apply Forall_singleton]; apply short_by_test; reflexivity.
Defined.

Lemma number_of_nvenc_gpus_no_driver_witness :
  number_of_nvenc_gpus example_dataset host_no_where []
  = (Return 0, [Run ["where"; "nvidia-smi"]; Warn (where_failed "nvidia-smi" 1)]).
Proof.
  apply (number_of_nvenc_gpus_no_driver example_dataset host_no_where []). discriminate.
Defined.

Lemma number_of_nvenc_gpus_smi_fails_witness :
  number_of_nvenc_gpus example_dataset host_smi_fails []
  = (Return 0, [Run ["where"; "nvidia-smi"]; Run [smi_path]; Warn (smi_failed 9)]).
Proof.
  apply (number_of_nvenc_gpus_smi_fails example_dataset host_smi_fails []
           [Run ["where"; "nvidia-smi"]] smi_path eq_refl).
  discriminate.
Defined.

Lemma number_of_nvenc_gpus_no_version_witness :
  number_of_nvenc_gpus example_dataset host_no_version []
  = (Return 0, [Run ["where"; "nvidia-smi"]; Run [smi_path];
                Log WARNING version_not_parsed]).
Proof.
  apply (number_of_nvenc_gpus_no_version example_dataset host_no_version []
           [Run ["where"; "nvidia-smi"]] smi_path ("No devices were found" +:+ LF)
           eq_refl eq_refl eq_refl).
  intros line ->%list_elem_of_singleton [g Hg]%search_version_iff. discriminate.
Defined.

Lemma number_of_nvenc_gpus_list_fails_witness :
  number_of_nvenc_gpus example_dataset host_list_fails []
  = (Return 0, [Run ["where"; "nvidia-smi"]; Run [smi_path];
                Log DEBUG (driver_version "450.80" 450 80);
                Run [smi_path; "-L"];
                Warn (list_failed 1 "Unable to determine the device handle")]).
Proof.
  apply (number_of_nvenc_gpus_list_fails example_dataset host_list_fails []
           [Run ["where"; "nvidia-smi"]] smi_path "450.80" 450 80
           ("Unable to determine the device handle" +:+ LF)).
  - split; [reflexivity|]. split; [reflexivity|].
    exists (banner_450_80_02 +:+ LF), "450", "80".
    split_and!; first [reflexivity | apply short_by_test; reflexivity].
  - done.
  - discriminate.
  - reflexivity.
Defined.

Lemma number_of_nvenc_gpus_count_witness :
  (number_of_nvenc_gpus example_dataset (host_driver "450.80.02" example_listing) []).1
  = Return 1.
Proof.
  apply (proj1 (number_of_nvenc_gpus_count example_dataset
                  (host_driver "450.80.02" example_listing) []
                  [Run ["where"; "nvidia-smi"]] smi_path "450.80" 450 80 example_listing
                  (driver_found_example example_listing) ltac:(done) eq_refl eq_refl
                  (short_lines_by_test (stripped_lines example_listing) eq_refl)
                  ltac:(refine (bool_decide_unpack
                                  (map_Forall (fun _ (tags : list str) => tags <> [])
                                              (COMPAT example_dataset)) _);
                        vm_compute; exact I))).
Defined.

Lemma number_of_nvenc_gpus_not_negative_witness :
  (number_of_nvenc_gpus example_dataset (host_driver "450.80.02" example_listing) []).1
  = Return 1 /\ 0 <= 1.
Proof.
  split; [reflexivity|].
  apply (number_of_nvenc_gpus_not_negative example_dataset
           (host_driver "450.80.02" example_listing) [] 1).
  reflexivity.
Defined.

Lemma has_nvenc_h264_raises_only_witness :
  (has_nvenc_h264 dataset_empty_tags rtx3080 host_no_match []).1 = Raise ValueError
  /\ ValueError = ValueError /\ COMPAT dataset_empty_tags !! name rtx3080 = Some [].
Proof.
  split; [reflexivity|].
  apply (has_nvenc_h264_raises_only dataset_empty_tags rtx3080 host_no_match []).
  reflexivity.
Defined.


Lemma number_of_nvenc_gpus_logs_lines_witness :
  Log INFO (gpus_available 3 " (GeForce RTX 3080, GeForce GT 1030, <unknown>)")
  ∈ (number_of_nvenc_gpus example_dataset (host_driver "450.80.02" example_listing) []).2.
Proof.
  apply (number_of_nvenc_gpus_logs_lines example_dataset
           (host_driver "450.80.02" example_listing) []
           [Run ["where"; "nvidia-smi"]] smi_path "450.80" 450 80 example_listing
           (driver_found_example example_listing) ltac:(done) eq_refl eq_refl
           (short_lines_by_test (stripped_lines example_listing) eq_refl)).
Defined.

Lemma find_command_first_path_witness :
  find_command "nvidia-smi" host_two_paths []
  = (Return (Some smi_path), [Run ["where"; "nvidia-smi"]]).
Proof.
  apply (find_command_first_path "nvidia-smi" host_two_paths [] smi_path
           (String "013" EmptyString)
           ("C:\Program Files\NVIDIA Corporation\NVSMI\nvidia-smi.exe"
            +:+ String "013" LF));
    reflexivity.
Defined.

Lemma stripped_lines_app_witness :
  stripped_lines ("GPU 0: A (UUID: a)" +:+ LF +:+ "  " +:+ LF +:+ "GPU 1: B (UUID: b)")
  = stripped_lines ("GPU 0: A (UUID: a)" +:+ LF +:+ "GPU 1: B (UUID: b)").
Proof.
  apply (proj2 (stripped_lines_app "GPU 0: A (UUID: a)" "GPU 1: B (UUID: b)" "  ")).
  reflexivity.
Defined.

Lemma find_version_first_witness :
  find_version (["Tue Nov  3 10:00:00 2020"] ++ banner_450_80_02 :: ["Driver Version: 1.2"])
  = find_version [banner_450_80_02]
  /\ is_Some (find_version [banner_450_80_02]).
Proof.
  apply (find_version_first ["Tue Nov  3 10:00:00 2020"] banner_450_80_02
           ["Driver Version: 1.2"]).
  - intros line ->%list_elem_of_singleton [g Hg]%search_version_iff. discriminate.
  - apply search_version_iff. by eexists.
Defined.
